(** * go-dblib, package [tds]: the packet-header codec and its neighbours

    A shallow embedding of [tds/packetHeader.go] and of the generated
    [tds/dynamicstatustype_string.go], together with the properties the
    specification of the packet transport layer states about them.

    Conventions.
    - A Go [uintN] is a [Z] in [0, 2^N); every conversion writes its
      wrap-around out ([uint8], [uint16], [int64]).
    - A [[]byte] is a [list byte]; an index or a slice expression that Go
      would answer with a run-time panic is [None] in the option monad.
    - A method with a pointer receiver returns the receiver next to its
      results; a method that writes into a slice returns the slice. *)

From Stdlib Require Import ZArith List Lia String Ascii DecimalString.
From Stdlib Require DecimalPos DecimalZ.
From coqutil Require Import Byte.
From stdpp Require Import base option list strings gmap.
From Equations Require Import Equations.

Local Open Scope Z_scope.

(** ** Go's conversions between integer types *)

Definition uint8 (x : Z) : Z := x mod 2 ^ 8.
Definition uint16 (x : Z) : Z := x mod 2 ^ 16.

(** [int64(x)]: the low 64 bits of [x], read as two's complement. *)
Definition int64 (x : Z) : Z := (x + 2 ^ 63) mod 2 ^ 64 - 2 ^ 63.

(** ** Slices *)

(** [len(bs)] *)
Definition len {A} (bs : list A) : Z := Z.of_nat (length bs).

(** [bs[i]], panicking out of range. *)
Definition index {A} (bs : list A) (i : nat) : option A := bs !! i.

(** [bs[i] = v], panicking out of range. *)
Definition store {A} (bs : list A) (i : nat) (v : A) : option (list A) :=
  if decide (i < length bs)%nat then Some (<[i := v]> bs) else None.

(** [bs[lo:hi]] as a value, panicking unless [lo <= hi <= len(bs)]. *)
Definition slice {A} (bs : list A) (lo hi : nat) : option (list A) :=
  if decide (lo <= hi <= length bs)%nat
  then Some (take (hi - lo) (drop lo bs)) else None.

(** [f(bs[lo:hi])] for an [f] that writes through the sub-slice: the
    sub-slice shares the backing array, so the writes land in [bs]. *)
Definition through_slice {A} (bs : list A) (lo hi : nat)
    (f : list A -> option (list A)) : option (list A) :=
  s ← slice bs lo hi;
  s' ← f s;
  Some (take lo bs ++ s' ++ drop hi bs).

(** ** [encoding/binary], the big-endian byte order *)

Module binary.

(** [func (bigEndian) PutUint16(b []byte, v uint16)]:
    [b[0] = byte(v >> 8); b[1] = byte(v)]. *)
Definition BigEndian_PutUint16 (b : list byte) (v : Z) : option (list byte) :=
  b ← store b 0 (byte.of_Z (Z.shiftr v 8));
  store b 1 (byte.of_Z v).

(** [func (bigEndian) Uint16(b []byte) uint16]:
    [uint16(b[1]) | uint16(b[0])<<8]. *)
Definition BigEndian_Uint16 (b : list byte) : option Z :=
  b1 ← index b 1;
  b0 ← index b 0;
  Some (Z.lor (byte.unsigned b1) (uint16 (Z.shiftl (byte.unsigned b0) 8))).

End binary.

(** ** Errors *)

(** An [error] value.  [fmt.Errorf] keeps its format string, its integer
    operands and the operand of [%w] ([None] when that operand is [nil]).
    [io_EOF] is [io.EOF]. *)
#[local] Set Warnings "-register-all".
Inductive error : Type :=
| io_EOF
| ErrEOFAfterZeroRead
| errors_New (msg : string)
| fmt_Errorf (format : string) (operands : list Z) (wrapped : option error).

Module errors.

(** Identity of error values: the sentinels are equal to themselves only. *)
Definition same (a b : error) : bool :=
  match a, b with
  | io_EOF, io_EOF => true
  | ErrEOFAfterZeroRead, ErrEOFAfterZeroRead => true
  | _, _ => false
  end.

(** [errors.Is(err, target)] for a sentinel [target]: walk the [Unwrap]
    chain of [err]; a [nil] error matches nothing. *)
Fixpoint Is_chain (err : error) (target : error) : bool :=
  same err target ||
  match err with
  | fmt_Errorf _ _ (Some inner) => Is_chain inner target
  | _ => false
  end.

Definition Is (err : option error) (target : error) : bool :=
  match err with
  | Some e => Is_chain e target
  | None => false
  end.

End errors.

(** ** [strconv] *)

Module strconv.

(** [strconv.FormatInt(n, 10)]: the decimal digits of [n], with a leading
    minus sign when [n] is negative. *)
Definition FormatInt10 (n : Z) : string := NilZero.string_of_int (Z.to_int n).

End strconv.

(** ** [io.Reader] *)

(** What one call [r.Read(bs)] does: the bytes it leaves in the buffer, and
    the count and the error it returns. *)
Record ReadResult : Type := {
  read_bytes : list byte;
  read_n : Z;
  read_err : option error
}.

(** A reader, as far as a single call on a buffer goes.  The callee cannot
    change the length of the caller's slice: whatever it wrote is laid over
    the buffer. *)
Definition io_Reader : Type := list byte -> ReadResult.

Definition overlay (written bs : list byte) : list byte :=
  take (length bs) (written ++ drop (length written) bs).

(** ** [tds/packetHeader.go] *)

Definition PacketHeaderSize : Z := 8.

(** [PacketHeaderType], [iota + 1] onwards. *)
Definition TDS_BUF_LANG : Z := 0 + 1.
Definition TDS_BUF_LOGIN : Z := 1 + 1.
Definition TDS_BUF_RPC : Z := 2 + 1.
Definition TDS_BUF_RESPONSE : Z := 3 + 1.
Definition TDS_BUF_UNFMT : Z := 4 + 1.
Definition TDS_BUF_ATTN : Z := 5 + 1.
Definition TDS_BUF_BULK : Z := 6 + 1.
Definition TDS_BUF_SETUP : Z := 7 + 1.
Definition TDS_BUF_CLOSE : Z := 8 + 1.
Definition TDS_BUF_ERROR : Z := 9 + 1.
Definition TDS_BUF_PROTACK : Z := 10 + 1.
Definition TDS_BUF_ECHO : Z := 11 + 1.
Definition TDS_BUF_LOGOUT : Z := 12 + 1.
Definition TDS_BUF_ENDPARAM : Z := 13 + 1.
Definition TDS_BUF_NORMAL : Z := 14 + 1.
Definition TDS_BUF_URGENT : Z := 15 + 1.
Definition TDS_BUF_MIGRATE : Z := 16 + 1.
Definition TDS_BUF_HELLO : Z := 17 + 1.
Definition TDS_BUF_CMDSEQ_NORMAL : Z := 18 + 1.
Definition TDS_BUF_CMDSEQ_LOGIN : Z := 19 + 1.
Definition TDS_BUF_CMDSEQ_LIVENESS : Z := 20 + 1.
Definition TDS_BUF_CMDSEQ_RESERVED1 : Z := 21 + 1.
Definition TDS_BUF_CMDSEQ_RESERVED2 : Z := 22 + 1.

(** The values of the [const] block, in the order of their declaration. *)
Definition PacketHeaderType_consts : list Z :=
  [ TDS_BUF_LANG; TDS_BUF_LOGIN; TDS_BUF_RPC; TDS_BUF_RESPONSE; TDS_BUF_UNFMT;
    TDS_BUF_ATTN; TDS_BUF_BULK; TDS_BUF_SETUP; TDS_BUF_CLOSE; TDS_BUF_ERROR;
    TDS_BUF_PROTACK; TDS_BUF_ECHO; TDS_BUF_LOGOUT; TDS_BUF_ENDPARAM;
    TDS_BUF_NORMAL; TDS_BUF_URGENT; TDS_BUF_MIGRATE; TDS_BUF_HELLO;
    TDS_BUF_CMDSEQ_NORMAL; TDS_BUF_CMDSEQ_LOGIN; TDS_BUF_CMDSEQ_LIVENESS;
    TDS_BUF_CMDSEQ_RESERVED1; TDS_BUF_CMDSEQ_RESERVED2 ].

(** [PacketHeaderStatus], a bit mask. *)
Definition TDS_BUFSTAT_EOM : Z := 0x1.
Definition TDS_BUFSTAT_ATTNACK : Z := 0x2.
Definition TDS_BUFSTAT_ATTN : Z := 0x4.
Definition TDS_BUFSTAT_EVENT : Z := 0x8.
Definition TDS_BUFSTAT_ENCRYPT : Z := 0x20.
Definition TDS_BUFSTAT_SYMENCRYPT : Z := 0x40.

Record PacketHeader : Type := {
  MsgType : Z;   (* PacketHeaderType, uint8 *)
  Status : Z;    (* PacketHeaderStatus, uint8 *)
  Length : Z;    (* uint16 *)
  Channel : Z;   (* uint16 *)
  PacketNr : Z;  (* uint8 *)
  Window : Z     (* uint8 *)
}.

(** The values the field types admit. *)
Record PacketHeader_typed (h : PacketHeader) : Prop := {
  MsgType_uint8 : 0 <= MsgType h < 2 ^ 8;
  Status_uint8 : 0 <= Status h < 2 ^ 8;
  Length_uint16 : 0 <= Length h < 2 ^ 16;
  Channel_uint16 : 0 <= Channel h < 2 ^ 16;
  PacketNr_uint8 : 0 <= PacketNr h < 2 ^ 8;
  Window_uint8 : 0 <= Window h < 2 ^ 8
}.

(** Assignments to the fields of a header. *)
Definition set_MsgType (v : Z) (h : PacketHeader) : PacketHeader :=
  {| MsgType := v; Status := Status h; Length := Length h;
     Channel := Channel h; PacketNr := PacketNr h; Window := Window h |}.
Definition set_Status (v : Z) (h : PacketHeader) : PacketHeader :=
  {| MsgType := MsgType h; Status := v; Length := Length h;
     Channel := Channel h; PacketNr := PacketNr h; Window := Window h |}.
Definition set_Length (v : Z) (h : PacketHeader) : PacketHeader :=
  {| MsgType := MsgType h; Status := Status h; Length := v;
     Channel := Channel h; PacketNr := PacketNr h; Window := Window h |}.
Definition set_Channel (v : Z) (h : PacketHeader) : PacketHeader :=
  {| MsgType := MsgType h; Status := Status h; Length := Length h;
     Channel := v; PacketNr := PacketNr h; Window := Window h |}.
Definition set_PacketNr (v : Z) (h : PacketHeader) : PacketHeader :=
  {| MsgType := MsgType h; Status := Status h; Length := Length h;
     Channel := Channel h; PacketNr := v; Window := Window h |}.
Definition set_Window (v : Z) (h : PacketHeader) : PacketHeader :=
  {| MsgType := MsgType h; Status := Status h; Length := Length h;
     Channel := Channel h; PacketNr := PacketNr h; Window := v |}.

(** [func NewPacketHeader(packetSize int) PacketHeader]: every field but
    [Length] keeps its zero value. *)
Definition NewPacketHeader (packetSize : Z) : PacketHeader :=
  {| MsgType := 0; Status := 0; Length := uint16 packetSize;
     Channel := 0; PacketNr := 0; Window := 0 |}.

(** [func (header PacketHeader) Read(bs []byte) (int64, error)]: the buffer
    after the call, the count and the error. *)
Definition Read (header : PacketHeader) (bs : list byte)
    : option (list byte * Z * option error) :=
  if decide (len bs ≠ PacketHeaderSize) then
    Some (bs, 0,
          Some (fmt_Errorf
                  "target buffer has unexpected length, expected %d bytes, buffer length is %d"
                  [PacketHeaderSize; len bs] None))
  else
    bs ← store bs 0 (byte.of_Z (MsgType header));
    bs ← store bs 1 (byte.of_Z (Status header));
    bs ← through_slice bs 2 4 (λ s, binary.BigEndian_PutUint16 s (Length header));
    bs ← through_slice bs 4 6 (λ s, binary.BigEndian_PutUint16 s (Channel header));
    bs ← store bs 6 (byte.of_Z (PacketNr header));
    bs ← store bs 7 (byte.of_Z (Window header));
    Some (bs, PacketHeaderSize, None).

(** [func (header *PacketHeader) Write(bs []byte) (int64, error)]: the
    header after the call, the count and the error. *)
Definition Write (header : PacketHeader) (bs : list byte)
    : option (PacketHeader * Z * option error) :=
  if decide (len bs ≠ PacketHeaderSize) then
    Some (header, 0,
          Some (fmt_Errorf
                  "passed buffer has unexpected length, expected 8 bytes, buffer length is %d"
                  [len bs] None))
  else
    b0 ← index bs 0;
    let header := set_MsgType (uint8 (byte.unsigned b0)) header in
    b1 ← index bs 1;
    let header := set_Status (uint8 (byte.unsigned b1)) header in
    s ← slice bs 2 4;
    uvarint ← binary.BigEndian_Uint16 s;
    let header := set_Length (uint16 uvarint) header in
    s ← slice bs 4 6;
    uvarint ← binary.BigEndian_Uint16 s;
    let header := set_Channel (uint16 uvarint) header in
    b6 ← index bs 6;
    let header := set_PacketNr (uint8 (byte.unsigned b6)) header in
    b7 ← index bs 7;
    let header := set_Window (uint8 (byte.unsigned b7)) header in
    Some (header, PacketHeaderSize, None).

(** [func (header *PacketHeader) ReadFrom(r io.Reader) (int64, error)] *)
Definition ReadFrom (header : PacketHeader) (r : io_Reader)
    : option (PacketHeader * Z * option error) :=
  let bs := replicate (Z.to_nat PacketHeaderSize) Byte.x00 in
  let res := r bs in
  let bs := overlay (read_bytes res) bs in
  let n := read_n res in
  let err := read_err res in
  if decide (err ≠ None ∨ n ≠ PacketHeaderSize) then
    if decide (n = 0 ∧ errors.Is err io_EOF = true) then
      Some (header, 0, Some ErrEOFAfterZeroRead)
    else
      Some (header, n,
            Some (fmt_Errorf "read %d of %d expected bytes from reader: %w"
                    [n; PacketHeaderSize] err))
  else
    Write header bs.

(** ** [tds/dynamicstatustype_string.go] *)

(** [s[lo:hi]] on a string, panicking unless [0 <= lo <= hi <= len(s)]. *)
Definition string_slice (s : string) (lo hi : Z) : option string :=
  if decide (0 <= lo ∧ lo <= hi ∧ hi <= Z.of_nat (String.length s))
  then Some (substring (Z.to_nat lo) (Z.to_nat (hi - lo)) s) else None.

(** [a[i]] on an array, for an index of an unsigned integer type. *)
Definition array_index {A} (a : list A) (i : Z) : option A :=
  if decide (0 <= i) then a !! Z.to_nat i else None.

Definition _DynamicStatusType_name_0 : string :=
  "TDS_DYNAMIC_UNUSEDTDS_DYNAMIC_HASARGSTDS_DYNAMIC_SUPPRESS_FMT".
Definition _DynamicStatusType_name_1 : string := "TDS_DYNAMIC_BATCH_PARAMS".
Definition _DynamicStatusType_name_2 : string := "TDS_DYNAMIC_SUPPRESS_PARAMFMT".

Definition _DynamicStatusType_index_0 : list Z := [0; 18; 37; 61].

(** The values the generated file pins down in its compile-time check. *)
Definition TDS_DYNAMIC_UNUSED : Z := 0.
Definition TDS_DYNAMIC_HASARGS : Z := 1.
Definition TDS_DYNAMIC_SUPPRESS_FMT : Z := 2.
Definition TDS_DYNAMIC_BATCH_PARAMS : Z := 4.
Definition TDS_DYNAMIC_SUPPRESS_PARAMFMT : Z := 8.

Module DynamicStatusType.

(** The declaration of [DynamicStatusType] is in another file of the
    package.  The generated [case i <= 2] (with no lower bound) is what
    stringer emits for an unsigned type, so the type is one of Go's unsigned
    integer types, of [bits] bits: a value is a [Z] in [0, 2^bits). *)
Definition width_ok (bits : Z) : Prop :=
  bits = 8 ∨ bits = 16 ∨ bits = 32 ∨ bits = 64.

Definition wrap (bits : Z) (x : Z) : Z := x mod 2 ^ bits.

(** [func (i DynamicStatusType) String() string] *)
Definition String (bits : Z) (i : Z) : option string :=
  if decide (i <= 2) then
    lo ← array_index _DynamicStatusType_index_0 i;
    hi ← array_index _DynamicStatusType_index_0 (wrap bits (i + 1));
    string_slice _DynamicStatusType_name_0 lo hi
  else if decide (i = 4) then
    Some _DynamicStatusType_name_1
  else if decide (i = 8) then
    Some _DynamicStatusType_name_2
  else
    Some ("DynamicStatusType(" ++ strconv.FormatInt10 (int64 i) ++ ")")%string.

End DynamicStatusType.

(** ** The message splitter and the message assembler

    Neither is in the files at hand: both are written down from the
    specification of the transport layer, on top of [PacketHeader] and
    [NewPacketHeader] above. *)

(** A packet: its header and the [Length - 8] bytes that follow it. *)
Record Packet : Type := {
  header : PacketHeader;
  payload : list byte
}.

(** The end-of-message bit of a status. *)
Definition has_EOM (status : Z) : bool :=
  negb (Z.land status TDS_BUFSTAT_EOM =? 0).


(** What is the same in every header of one logical message, and the
    sequence number the channel used last. *)
Record Outbound : Type := {
  out_channel : Z;
  out_msgType : Z;
  out_status : Z
}.

(** The header around one chunk: [length = 8 + chunk.len()], the channel
    and the type of the message, the given sequence number and status. *)
Definition wrap_chunk (o : Outbound) (nr status : Z) (chunk : list byte)
    : Packet :=
  {| header :=
       set_PacketNr nr
         (set_Channel (out_channel o)
            (set_Status status
               (set_MsgType (out_msgType o)
                  (NewPacketHeader (PacketHeaderSize + len chunk)))));
     payload := chunk |}.

(** Modelled from the spec: the carving loop of the Message Splitter (the
    splitter itself is missing from the sources).  While more than [cap]
    bytes remain, carve [cap] of them off into a packet that carries the
    caller's status bits; what remains at the end, possibly nothing, goes
    into the final packet, whose status has end-of-message or-ed in.  The
    sequence number goes up by one, modulo 256, from the one used last. *)
Equations? carve (cap : nat) (o : Outbound) (lastNr : Z) (rest : list byte)
    : list Packet by wf (length rest) lt :=
  carve cap o lastNr rest with decide (0 < cap < length rest)%nat := {
    | left _ =>
        wrap_chunk o (uint8 (lastNr + 1)) (out_status o) (take cap rest)
        :: carve cap o (uint8 (lastNr + 1)) (drop cap rest)
    | right _ =>
        [ wrap_chunk o (uint8 (lastNr + 1))
            (Z.lor (out_status o) TDS_BUFSTAT_EOM) rest ] }.
Proof. rewrite length_drop. lia. Qed.

(** Modelled from the spec: the Message Splitter (missing from the
    sources).  Its input is a channel, a message type, the status bits of
    the message, the sequence number the channel used last, the payload and
    the negotiated maximum packet size [M]; the spec admits [M >= 9] only,
    and a chunk holds up to [M - 8] bytes. *)
Definition Splitter (M : Z) (o : Outbound) (lastNr : Z) (msg : list byte)
    : option (list Packet) :=
  if decide (9 <= M) then Some (carve (Z.to_nat (M - 8)) o lastNr msg)
  else None.












(** ** The length invariant of the data model *)

(** [8 <= length], and [length] is the header size plus the payload length. *)
Definition length_invariant (h : PacketHeader) (payload_len : Z) : Prop :=
  PacketHeaderSize <= Length h /\ Length h = PacketHeaderSize + payload_len.

(** ** [tds/packetHeader.go], the writing side *)

(** What one call [w.Write(bs)] returns, for the bytes it is handed. *)
Definition io_Writer : Type := list byte -> Z * option error.

(** [func (header PacketHeader) WriteTo(w io.Writer) (int64, error)] *)
Definition WriteTo (header : PacketHeader) (w : io_Writer)
    : option (Z * option error) :=
  let bs := replicate (Z.to_nat PacketHeaderSize) Byte.x00 in
  res ← Read header bs;
  let '(bs, n, err) := res in
  if decide (err ≠ None ∨ n ≠ PacketHeaderSize) then
    Some (n,
          Some (fmt_Errorf
                  "failed to write header information to byte slice: %w"
                  [] err))
  else
    Some (w bs).

(** * Package [dsn]: data source names *)

Module dsn.

(** ** What the package uses of [strings], [strconv], [reflect], [net/url] *)

(** [strings.Split(s, sep)] for a separator of one byte: the pieces of [s]
    between the occurrences of [sep]; one more piece than occurrences, so
    the empty string gives one empty piece. *)
Fixpoint strings_Split (s : string) (sep : ascii) : list string :=
  match s with
  | EmptyString => [EmptyString]
  | String c s' =>
      if Ascii.eqb c sep then EmptyString :: strings_Split s' sep
      else match strings_Split s' sep with
           | piece :: pieces => String c piece :: pieces
           | [] => [String c EmptyString]
           end
  end.

(** [strings.SplitN(s, sep, 2)] for a separator of one byte: [s] cut at the
    first occurrence of [sep], or [s] alone when there is none. *)
Fixpoint strings_SplitN2 (s : string) (sep : ascii) : list string :=
  match s with
  | EmptyString => [EmptyString]
  | String c s' =>
      if Ascii.eqb c sep then [EmptyString; s']
      else match strings_SplitN2 s' sep with
           | [piece] => [String c piece]
           | piece :: rest => String c piece :: rest
           | [] => [String c EmptyString]
           end
  end.

(** [strings.HasPrefix(s, prefix)] *)
Definition strings_HasPrefix (s p : string) : bool := String.prefix p s.

(** [strings.TrimPrefix(s, prefix)] *)
Definition strings_TrimPrefix (s p : string) : string :=
  if strings_HasPrefix s p
  then substring (String.length p) (String.length s - String.length p) s
  else s.

(** [strings.ReplaceAll(s, old, new)] for [old] and [new] of one byte. *)
Fixpoint strings_ReplaceAll (s : string) (old new : ascii) : string :=
  match s with
  | EmptyString => EmptyString
  | String c s' =>
      String (if Ascii.eqb c old then new else c) (strings_ReplaceAll s' old new)
  end.

(** No byte of [s] is [utf8.RuneSelf] or above. *)
Fixpoint is_ASCII (s : string) : bool :=
  match s with
  | EmptyString => true
  | String c s' => (nat_of_ascii c <? 128)%nat && is_ASCII s'
  end.

(** ['A' <= c && c <= 'Z'] then [c += 'a' - 'A'] *)
Definition lower_byte (c : ascii) : ascii :=
  if ((65 <=? nat_of_ascii c) && (nat_of_ascii c <=? 90))%nat
  then ascii_of_nat (nat_of_ascii c + 32) else c.

Fixpoint lower_bytes (s : string) : string :=
  match s with
  | EmptyString => EmptyString
  | String c s' => String (lower_byte c) (lower_bytes s')
  end.

(** [strings.ToLower(s)]: on a string of ASCII bytes only, the upper-case
    letters are mapped byte by byte; any other string goes through the
    Unicode case mapping, which is left open here. *)
Definition strings_ToLower (unicode_ToLower : string -> string) (s : string)
    : string :=
  if is_ASCII s then lower_bytes s else unicode_ToLower s.

(** The errors of the package: [strconv]'s syntax error, and [fmt.Errorf]
    with its format string, its string operands and the operand of [%w]. *)
Inductive error : Type :=
| NumError (Func Num : string)
| Errorf (format : string) (operands : list string) (wrapped : option error).

(** [strconv.ParseBool(str)] *)
Definition strconv_ParseBool (str : string) : bool * option error :=
  if bool_decide (str ∈ ["1"; "t"; "T"; "true"; "TRUE"; "True"]) then (true, None)
  else if bool_decide (str ∈ ["0"; "f"; "F"; "false"; "FALSE"; "False"])
  then (false, None)
  else (false, Some (NumError "ParseBool" str)).

(** [reflect.Kind], as far as the fields of [Info] go, and its [String]. *)
Inductive Kind : Type := Kind_String | Kind_Bool | Kind_Int | Kind_Map.

Definition Kind_name (k : Kind) : string :=
  match k with
  | Kind_String => "string"
  | Kind_Bool => "bool"
  | Kind_Int => "int"
  | Kind_Map => "map"
  end.

(** [reflect.StructField]: the name, the tag as its key-value pairs, and
    the kind of the field's type. *)
Record StructField : Type := {
  Name : string;
  Tag : list (string * string);
  FieldKind : Kind
}.

(** [reflect.StructTag.Get(key)]: the value of [key], or the empty string. *)
Fixpoint Tag_Get (tag : list (string * string)) (key : string) : string :=
  match tag with
  | [] => EmptyString
  | (k, v) :: tag => if String.eqb k key then v else Tag_Get tag key
  end.

(** [url.Values.Add(key, value)]: [v[key] = append(v[key], value)]. *)
Definition Values_Add (v : gmap string (list string)) (key value : string)
    : gmap string (list string) :=
  <[key := default [] (v !! key) ++ [value]]> v.

(** ** [type Info struct] *)

(** [ConnectProps] is a map, [None] when it is [nil]. *)
Record Info : Type := Build_Info {
  Host : string;
  Port : string;
  Username : string;
  Password : string;
  Userstorekey : string;
  Database : string;
  ClientHostname : string;
  PacketReadTimeout : Z;
  TLSEnable : bool;
  TLSHostname : string;
  TLSSkipValidation : bool;
  TLSCAFile : string;
  ConnectProps : option (gmap string (list string))
}.

(** The fields of [Info] with their tags, in the order of declaration. *)
Definition Info_fields : list StructField :=
  [ {| Name := "Host"; FieldKind := Kind_String;
       Tag := [("json", "host"); ("multiref", "hostname"); ("validate", "required")] |};
    {| Name := "Port"; FieldKind := Kind_String;
       Tag := [("json", "port"); ("validate", "required")] |};
    {| Name := "Username"; FieldKind := Kind_String;
       Tag := [("json", "username"); ("multiref", "user"); ("validate", "required")] |};
    {| Name := "Password"; FieldKind := Kind_String;
       Tag := [("json", "password"); ("multiref", "passwd,pass")] |};
    {| Name := "Userstorekey"; FieldKind := Kind_String;
       Tag := [("json", "userstorekey"); ("multiref", "key"); ("validate", "required")] |};
    {| Name := "Database"; FieldKind := Kind_String;
       Tag := [("json", "database"); ("multiref", "db")] |};
    {| Name := "ClientHostname"; FieldKind := Kind_String;
       Tag := [("json", "client-hostname")] |};
    {| Name := "PacketReadTimeout"; FieldKind := Kind_Int;
       Tag := [("json", "packet-read-timeout")] |};
    {| Name := "TLSEnable"; FieldKind := Kind_Bool;
       Tag := [("json", "tls")] |};
    {| Name := "TLSHostname"; FieldKind := Kind_String;
       Tag := [("json", "tls-hostname"); ("multiref", "ssl")] |};
    {| Name := "TLSSkipValidation"; FieldKind := Kind_Bool;
       Tag := [("json", "tls-skip-validation")] |};
    {| Name := "TLSCAFile"; FieldKind := Kind_String;
       Tag := [("json", "tls-ca")] |};
    {| Name := "ConnectProps"; FieldKind := Kind_Map;
       Tag := [("json", "connectprops")] |} ].

(** Assignments to the fields. *)
Definition set_Host (x : string) (info : Info) : Info :=
  let '(Build_Info _ b c d e f g h i j k l m) := info in
  Build_Info x b c d e f g h i j k l m.
Definition set_Port (x : string) (info : Info) : Info :=
  let '(Build_Info a _ c d e f g h i j k l m) := info in
  Build_Info a x c d e f g h i j k l m.
Definition set_Username (x : string) (info : Info) : Info :=
  let '(Build_Info a b _ d e f g h i j k l m) := info in
  Build_Info a b x d e f g h i j k l m.
Definition set_Password (x : string) (info : Info) : Info :=
  let '(Build_Info a b c _ e f g h i j k l m) := info in
  Build_Info a b c x e f g h i j k l m.
Definition set_Userstorekey (x : string) (info : Info) : Info :=
  let '(Build_Info a b c d _ f g h i j k l m) := info in
  Build_Info a b c d x f g h i j k l m.
Definition set_Database (x : string) (info : Info) : Info :=
  let '(Build_Info a b c d e _ g h i j k l m) := info in
  Build_Info a b c d e x g h i j k l m.
Definition set_ClientHostname (x : string) (info : Info) : Info :=
  let '(Build_Info a b c d e f _ h i j k l m) := info in
  Build_Info a b c d e f x h i j k l m.
Definition set_TLSEnable (x : bool) (info : Info) : Info :=
  let '(Build_Info a b c d e f g h _ j k l m) := info in
  Build_Info a b c d e f g h x j k l m.
Definition set_TLSHostname (x : string) (info : Info) : Info :=
  let '(Build_Info a b c d e f g h i _ k l m) := info in
  Build_Info a b c d e f g h i x k l m.
Definition set_TLSSkipValidation (x : bool) (info : Info) : Info :=
  let '(Build_Info a b c d e f g h i j _ l m) := info in
  Build_Info a b c d e f g h i j x l m.
Definition set_TLSCAFile (x : string) (info : Info) : Info :=
  let '(Build_Info a b c d e f g h i j k _ m) := info in
  Build_Info a b c d e f g h i j k x m.
Definition set_ConnectProps (x : option (gmap string (list string))) (info : Info) : Info :=
  let '(Build_Info a b c d e f g h i j k l _) := info in
  Build_Info a b c d e f g h i j k l x.

(** A [reflect.Value] that stands for the [i]-th field of an [Info]: its
    content, and the two setters the package uses, which panic on a field
    of another kind. *)
Inductive Value : Type :=
| V_String (s : string)
| V_Bool (b : bool)
| V_Int (z : Z)
| V_Map (m : option (gmap string (list string))).

Definition Field (info : Info) (i : nat) : option Value :=
  match i with
  | 0 => Some (V_String (Host info))
  | 1 => Some (V_String (Port info))
  | 2 => Some (V_String (Username info))
  | 3 => Some (V_String (Password info))
  | 4 => Some (V_String (Userstorekey info))
  | 5 => Some (V_String (Database info))
  | 6 => Some (V_String (ClientHostname info))
  | 7 => Some (V_Int (PacketReadTimeout info))
  | 8 => Some (V_Bool (TLSEnable info))
  | 9 => Some (V_String (TLSHostname info))
  | 10 => Some (V_Bool (TLSSkipValidation info))
  | 11 => Some (V_String (TLSCAFile info))
  | 12 => Some (V_Map (ConnectProps info))
  | _ => None
  end%nat.

Definition SetString (info : Info) (i : nat) (x : string) : option Info :=
  match i with
  | 0 => Some (set_Host x info)
  | 1 => Some (set_Port x info)
  | 2 => Some (set_Username x info)
  | 3 => Some (set_Password x info)
  | 4 => Some (set_Userstorekey x info)
  | 5 => Some (set_Database x info)
  | 6 => Some (set_ClientHostname x info)
  | 9 => Some (set_TLSHostname x info)
  | 11 => Some (set_TLSCAFile x info)
  | _ => None
  end%nat.

Definition SetBool (info : Info) (i : nat) (x : bool) : option Info :=
  match i with
  | 8 => Some (set_TLSEnable x info)
  | 10 => Some (set_TLSSkipValidation x info)
  | _ => None
  end%nat.

(** ** The functions of the package *)

(** [func NewInfo() *Info] *)
Definition NewInfo : Info :=
  {| Host := ""; Port := ""; Username := ""; Password := "";
     Userstorekey := ""; Database := ""; ClientHostname := "";
     PacketReadTimeout := 50; TLSEnable := false; TLSHostname := "";
     TLSSkipValidation := false; TLSCAFile := "";
     ConnectProps := Some ∅ |}.

(** The names one field goes by: the first piece of its [json] tag, and
    with [multiref] the pieces of its [multiref] tag. *)
Definition names_of (multiref : bool) (f : StructField) : option (list string) :=
  let names := strings_Split (Tag_Get (Tag f) "json") "," in
  name ← names !! 0%nat;
  let names := [name] in
  if multiref then
    let multirefs := strings_Split (Tag_Get (Tag f) "multiref") "," in
    Some (names ++ multirefs)
  else Some names.

(** [func (info *Info) tagToField(multiref bool) map[string]reflect.Value]:
    the map from names to fields, a field being its index. *)
Definition tagToField (multiref : bool) : option (gmap string nat) :=
  foldl (λ acc '(i, f),
           tTF ← acc;
           if String.eqb (Name f) "ConnectProps" then Some tTF
           else
             names ← names_of multiref f;
             Some (foldl (λ tTF name, <[name := i]> tTF) tTF names))
        (Some ∅) (imap pair Info_fields).

(** [func (info *Info) SetField(key, value string) error]: the [Info]
    after the call, and the error. *)
Definition SetField (info : Info) (key value : string)
    : option (Info * option error) :=
  ttf ← tagToField true;
  match ttf !! key with
  | None =>
      props ← ConnectProps info;
      Some (set_ConnectProps (Some (Values_Add props key value)) info, None)
  | Some i =>
      f ← Info_fields !! i;
      match FieldKind f with
      | Kind_String =>
          info ← SetString info i value;
          Some (info, None)
      | Kind_Bool =>
          match strconv_ParseBool value with
          | (b, None) =>
              info ← SetBool info i b;
              Some (info, None)
          | (_, Some err) =>
              Some (info,
                    Some (Errorf "error parsing '%s' as bool for field %s: %w"
                            [value; key] (Some err)))
          end
      | k => Some (info, Some (Errorf "unhandled field kind: %s" [Kind_name k] None))
      end
  end.

(** [func (info Info) Prop(property string) string] *)
Definition Info_Prop (info : Info) (property : string) : option string :=
  match ConnectProps info with
  | None => Some EmptyString
  | Some props =>
      match props !! property with
      | None => Some EmptyString
      | Some vals =>
          if decide (length vals = 0%nat) then Some EmptyString
          else vals !! (length vals - 1)%nat
      end
  end.

(** [func (info Info) PropDefault(property, defaultValue string) string] *)
Definition PropDefault (info : Info) (property defaultValue : string)
    : option string :=
  val ← Info_Prop info property;
  if decide (val ≠ EmptyString) then Some val else Some defaultValue.

(** The body of the loop of [NewInfoFromEnv], for one entry [env] of the
    environment: the [Info] built so far goes in and comes out, next to the
    error the function returns with, if this entry makes it return. *)
Definition env_entry (unicode_ToLower : string -> string) (prefix : string)
    (dsn : Info) (env : string) : option (Info * option error) :=
  let envSplit := strings_SplitN2 env "=" in
  key ← envSplit !! 0%nat;
  value ← envSplit !! 1%nat;
  if negb (strings_HasPrefix key prefix) then Some (dsn, None)
  else
    let key := strings_ToLower unicode_ToLower (strings_TrimPrefix key prefix) in
    let key := strings_ReplaceAll key "_" "-" in
    res ← SetField dsn key value;
    match res with
    | (dsn, None) => Some (dsn, None)
    | (_, Some err) =>
        Some (dsn,
              Some (Errorf "error setting value '%s' for field %s: %w"
                      [value; key] (Some err)))
    end.

(** The loop itself: entry after entry, until one makes the function
    return. *)
Definition env_loop (unicode_ToLower : string -> string) (prefix : string)
    (st : option (Info * option error)) (env : string)
    : option (Info * option error) :=
  st ← st;
  match st with
  | (dsn, None) => env_entry unicode_ToLower prefix dsn env
  | (dsn, Some err) => Some (dsn, Some err)
  end.

(** [func NewInfoFromEnv(prefix string)], which returns an [Info] and an
    error, on the environment that [os.Environ()] returns. *)
Definition NewInfoFromEnv (unicode_ToLower : string -> string)
    (environ : list string) (prefix : string)
    : option (option Info * option error) :=
  let prefix := if decide (prefix = EmptyString) then "ASE"%string else prefix in
  let prefix := (prefix ++ "_")%string in
  res ← foldl (env_loop unicode_ToLower prefix) (Some (NewInfo, None)) environ;
  match res with
  | (dsn, None) => Some (Some dsn, None)
  | (_, Some err) => Some (None, Some err)
  end.

(** The field [SetField] resolves a key to, if any. *)
Definition field_of_key (key : string) : option nat :=
  ttf ← tagToField true;
  ttf !! key.

(** [SetField] called for one key-value pair after the other, whatever
    errors are returned on the way. *)
Definition SetField_each (info : Info) (kvs : list (string * string))
    : option Info :=
  foldl (λ acc kv, info ← acc; res ← SetField info kv.1 kv.2; Some res.1)
        (Some info) kvs.

End dsn.

(** * Package [term]: the interactive console *)

Module term.

(** [strings.HasSuffix(s, suffix)] *)
Definition strings_HasSuffix (s suffix : string) : bool :=
  (String.length suffix <=? String.length s)%nat
  && String.eqb
       (substring (String.length s - String.length suffix)
          (String.length suffix) s)
       suffix.

(** [strings.Join(elems, sep)] *)
Definition strings_Join (elems : list string) (sep : string) : string :=
  String.concat sep elems.

(** The package variables [PromptDatabaseName] and [promptMultiline]. *)
Record Globals : Type := {
  PromptDatabaseName : string;
  promptMultiline : bool
}.

(** [func UpdatePrompt()]: the prompt it hands to [rl.SetPrompt]. *)
Definition UpdatePrompt (g : Globals) : string :=
  let prompt := "> "%string in
  let prompt := if promptMultiline g then ">>> "%string else prompt in
  if decide (PromptDatabaseName g ≠ EmptyString)
  then (PromptDatabaseName g ++ prompt)%string else prompt.

(** What [Repl] does that can be observed: the prompts it sets, the lines
    it has executed, the errors it logs. *)
Inductive Output : Type :=
| SetPrompt (prompt : string)
| Exec (line : string)
| Println (err : error).

(** How an iteration of the loop of [Repl] ends: with the next iteration,
    or with the return of [Repl]. *)
Inductive Next : Type :=
| Continue (cmds : list string) (g : Globals)
| Return (err : option error) (g : Globals).

Section Repl.

(** [strings.TrimSpace], which knows the white space of Unicode, is left
    open. *)
Variable strings_TrimSpace : string -> string.

(** [ParseAndExecQueries(db, line)] is in another file of the package: for
    a line and the current [PromptDatabaseName], the error it returns and
    the [PromptDatabaseName] it leaves. *)
Variable ParseAndExecQueries : string -> string -> option error * string.

(** One iteration of the loop of [Repl], for what [rl.Readline()] returns
    in it. *)
Definition iteration (cmds : list string) (g : Globals)
    (read : string * option error) : list Output * Next :=
  let out := [SetPrompt (UpdatePrompt g)] in
  let '(line, err) := read in
  let rest (exitAfterExecution : bool) : list Output * Next :=
    let line := strings_TrimSpace line in
    let cmds := if decide (line ≠ EmptyString) then cmds ++ [line] else cmds in
    if negb (strings_HasSuffix line ";") && negb exitAfterExecution then
      (out,
       Continue cmds
         {| PromptDatabaseName := PromptDatabaseName g;
            promptMultiline := true |})
    else
      let line := strings_Join cmds " " in
      let '(err, name) := ParseAndExecQueries line (PromptDatabaseName g) in
      let g := {| PromptDatabaseName := name; promptMultiline := false |} in
      let out := out ++ [Exec line] in
      if exitAfterExecution then (out, Return err g)
      else
        match err with
        | Some e => (out ++ [Println e], Continue [] g)
        | None => (out, Continue [] g)
        end in
  match err with
  | Some _ =>
      if errors.Is err io_EOF then rest true
      else
        (out,
         Return
           (Some (fmt_Errorf "term: received error from readline: %w" [] err))
           g)
  | None => rest false
  end.

(** The loop, over what the calls of [rl.Readline()] return one after the
    other; it stays in [Continue] when these run out. *)
Fixpoint loop (cmds : list string) (g : Globals)
    (reads : list (string * option error)) : list Output * Next :=
  match reads with
  | [] => ([], Continue cmds g)
  | read :: reads =>
      match iteration cmds g read with
      | (out, Continue cmds g) =>
          let '(out', next) := loop cmds g reads in (out ++ out', next)
      | (out, Return err g) => (out, Return err g)
      end
  end.

(** [func Repl(db *sql.DB) error], for the error of [readline.New], the
    package variables at the call and the lines read. *)
Definition Repl (new_err : option error) (g : Globals)
    (reads : list (string * option error)) : list Output * Next :=
  match new_err with
  | Some err =>
      ([],
       Return (Some (fmt_Errorf "term: failed to initialize readline: %w" []
                       (Some err))) g)
  | None => loop [] g reads
  end.

End Repl.

(** The package variables once a line has been read that did not end a
    command. *)
Definition multiline (g : Globals) : Globals :=
  {| PromptDatabaseName := PromptDatabaseName g; promptMultiline := true |}.

(** The prompts set for [n] lines read in a row none of which, but possibly
    the last, ends a command: the first as the package variables have it,
    the others for a command that goes on. *)
Definition prompts (g : Globals) (n : nat) : list Output :=
  match n with
  | O => []
  | S n =>
      SetPrompt (UpdatePrompt g)
      :: replicate n (SetPrompt (UpdatePrompt (multiline g)))
  end.

(** The lines as they are kept for the command: trimmed, and the empty
    ones left out. *)
Definition kept (strings_TrimSpace : string -> string) (lines : list string)
    : list string :=
  filter (λ l, l ≠ EmptyString) (strings_TrimSpace <$> lines).

End term.

(** * Properties *)

(** ** Bytes and 16-bit words *)

Section Words.

Implicit Types a b v : Z.

Lemma land_low_high a b : 0 <= a < 2 ^ 8 -> Z.land a (Z.shiftl b 8) = 0.
Proof.
  intros Ha. apply Z.bits_inj'. intros n Hn.
  rewrite Z.land_spec, Z.bits_0.
  destruct (Z.lt_ge_cases n 8) as [Hlt | Hge].
  - rewrite Z.shiftl_spec_low by lia. apply andb_false_r.
  - assert (Z.testbit a n = false) as ->; [| reflexivity].
    destruct (Z.eq_dec a 0) as [-> | Hnz]; [apply Z.bits_0 |].
    apply Z.bits_above_log2; [lia |].
    apply Z.log2_lt_pow2; [lia |].
    apply Z.lt_le_trans with (2 ^ 8); [lia |].
    apply Z.pow_le_mono_r; lia.
Qed.

Lemma lor_low_high a b :
  0 <= a < 2 ^ 8 -> Z.lor a (Z.shiftl b 8) = a + 2 ^ 8 * b.
Proof.
  intros Ha. pose proof (Z.add_lor_land a (Z.shiftl b 8)) as Hsum.
  rewrite (land_low_high a b Ha) in Hsum.
  rewrite Z.shiftl_mul_pow2 in Hsum |- * by lia. lia.
Qed.

(** The value [binary.BigEndian.Uint16] computes from a high and a low byte. *)
Lemma Uint16_value (hi lo : byte) :
  Z.lor (byte.unsigned lo) (uint16 (Z.shiftl (byte.unsigned hi) 8))
  = 2 ^ 8 * byte.unsigned hi + byte.unsigned lo.
Proof.
  pose proof (byte.unsigned_range hi) as Hhi.
  pose proof (byte.unsigned_range lo) as Hlo.
  assert (uint16 (Z.shiftl (byte.unsigned hi) 8) = Z.shiftl (byte.unsigned hi) 8)
    as ->.
  { unfold uint16. rewrite Z.shiftl_mul_pow2 by lia. apply Z.mod_small. lia. }
  rewrite lor_low_high by exact Hlo. lia.
Qed.

Lemma Uint16_range (hi lo : byte) :
  0 <= 2 ^ 8 * byte.unsigned hi + byte.unsigned lo < 2 ^ 16.
Proof.
  pose proof (byte.unsigned_range hi). pose proof (byte.unsigned_range lo). lia.
Qed.

Lemma uint8_small v : 0 <= v < 2 ^ 8 -> uint8 v = v.
Proof. apply Z.mod_small. Qed.

Lemma uint16_small v : 0 <= v < 2 ^ 16 -> uint16 v = v.
Proof. apply Z.mod_small. Qed.

Lemma unsigned_of_Z_small v : 0 <= v < 2 ^ 8 -> byte.unsigned (byte.of_Z v) = v.
Proof. intros Hv. rewrite byte.unsigned_of_Z. apply Z.mod_small, Hv. Qed.

(** The high byte [byte(v >> 8)] of a 16-bit [v]. *)
Lemma unsigned_high v :
  0 <= v < 2 ^ 16 -> byte.unsigned (byte.of_Z (Z.shiftr v 8)) = v / 2 ^ 8.
Proof.
  intros Hv. rewrite Z.shiftr_div_pow2 by lia.
  apply unsigned_of_Z_small. split.
  - apply Z.div_pos; lia.
  - apply Z.div_lt_upper_bound; lia.
Qed.

(** The low byte [byte(v)]. *)
Lemma unsigned_low v : byte.unsigned (byte.of_Z v) = v mod 2 ^ 8.
Proof. apply byte.unsigned_of_Z. Qed.

Lemma high_low_join v : 2 ^ 8 * (v / 2 ^ 8) + v mod 2 ^ 8 = v.
Proof. symmetry. apply Z.div_mod. lia. Qed.

(** [byte(v >> 8)] and [byte(v)] of the value of two bytes are those bytes. *)
Lemma of_Z_high (hi lo : byte) :
  byte.of_Z (Z.shiftr (2 ^ 8 * byte.unsigned hi + byte.unsigned lo) 8) = hi.
Proof.
  pose proof (byte.unsigned_range lo) as Hlo.
  rewrite Z.shiftr_div_pow2 by lia.
  rewrite Z.mul_comm, Z.div_add_l by lia.
  rewrite Z.div_small by exact Hlo.
  rewrite Z.add_0_r. apply byte.of_Z_unsigned.
Qed.

Lemma of_Z_low (hi lo : byte) :
  byte.of_Z (2 ^ 8 * byte.unsigned hi + byte.unsigned lo) = lo.
Proof.
  apply byte.unsigned_inj. rewrite byte.unsigned_of_Z. unfold byte.wrap.
  rewrite Z.add_comm, Z.mul_comm, Z.mod_add by lia.
  apply Z.mod_small, byte.unsigned_range.
Qed.

End Words.

(** ** The codec on buffers of eight bytes *)

Lemma eight_bytes {A} (bs : list A) :
  length bs = 8%nat ->
  exists b0 b1 b2 b3 b4 b5 b6 b7, bs = [b0; b1; b2; b3; b4; b5; b6; b7].
Proof.
  intros H.
  do 8 (destruct bs as [| ? bs]; [discriminate H |]).
  destruct bs; [| discriminate H]. eauto 10.
Qed.

Lemma len_eight {A} (bs : list A) : len bs = PacketHeaderSize <-> length bs = 8%nat.
Proof. unfold len, PacketHeaderSize. lia. Qed.

(** [Read] on eight bytes, whatever they held. *)
Lemma Read_eight h (b0 b1 b2 b3 b4 b5 b6 b7 : byte) :
  Read h [b0; b1; b2; b3; b4; b5; b6; b7]
  = Some ([ byte.of_Z (MsgType h); byte.of_Z (Status h);
            byte.of_Z (Z.shiftr (Length h) 8); byte.of_Z (Length h);
            byte.of_Z (Z.shiftr (Channel h) 8); byte.of_Z (Channel h);
            byte.of_Z (PacketNr h); byte.of_Z (Window h) ],
          8, None).
Proof. reflexivity. Qed.

(** [Write] on eight bytes. *)
Lemma Write_eight h (b0 b1 b2 b3 b4 b5 b6 b7 : byte) :
  Write h [b0; b1; b2; b3; b4; b5; b6; b7]
  = Some ({| MsgType := byte.unsigned b0;
             Status := byte.unsigned b1;
             Length := 2 ^ 8 * byte.unsigned b2 + byte.unsigned b3;
             Channel := 2 ^ 8 * byte.unsigned b4 + byte.unsigned b5;
             PacketNr := byte.unsigned b6;
             Window := byte.unsigned b7 |},
          8, None).
Proof.
  assert (forall b : byte, uint8 (byte.unsigned b) = byte.unsigned b) as U8.
  { intros b. apply uint8_small, byte.unsigned_range. }
  assert (forall hi lo : byte,
    uint16 (Z.lor (byte.unsigned lo) (uint16 (Z.shiftl (byte.unsigned hi) 8)))
    = 2 ^ 8 * byte.unsigned hi + byte.unsigned lo) as U16.
  { intros hi lo. rewrite Uint16_value. apply uint16_small, Uint16_range. }
  rewrite <- (U8 b0), <- (U8 b1), <- (U8 b6), <- (U8 b7).
  rewrite <- (U16 b2 b3), <- (U16 b4 b5).
  reflexivity.
Qed.

(** [Read] and [Write] on a buffer of any other length. *)
Lemma Read_other h (bs : list byte) :
  length bs <> 8%nat ->
  Read h bs
  = Some (bs, 0,
          Some (fmt_Errorf
                  "target buffer has unexpected length, expected %d bytes, buffer length is %d"
                  [8; len bs] None)).
Proof.
  intros H. unfold Read. destruct (decide _) as [_ | Hlen]; [reflexivity |].
  exfalso. apply H, len_eight. destruct (decide (len bs = PacketHeaderSize)); tauto.
Qed.

Lemma Write_other h (bs : list byte) :
  length bs <> 8%nat ->
  Write h bs
  = Some (h, 0,
          Some (fmt_Errorf
                  "passed buffer has unexpected length, expected 8 bytes, buffer length is %d"
                  [len bs] None)).
Proof.
  intros H. unfold Write. destruct (decide _) as [_ | Hlen]; [reflexivity |].
  exfalso. apply H, len_eight. destruct (decide (len bs = PacketHeaderSize)); tauto.
Qed.

(** The header [Write] leaves behind has the values its field types admit. *)
Lemma Write_typed h0 h (bs : list byte) n err :
  PacketHeader_typed h0 -> Write h0 bs = Some (h, n, err) -> PacketHeader_typed h.
Proof.
  intros Ht HW. destruct (decide (length bs = 8%nat)) as [Hlen | Hlen].
  - destruct (eight_bytes bs Hlen) as (b0 & b1 & b2 & b3 & b4 & b5 & b6 & b7 & ->).
    rewrite Write_eight in HW. injection HW as <- _ _.
    constructor; cbn; auto using byte.unsigned_range, Uint16_range.
  - rewrite Write_other in HW by exact Hlen. injection HW as <- _ _. exact Ht.
Qed.

(** ** The claims about the codec *)

(** C1. Round trip: for every header [h] (any values its field types
    admit), encoding [h] into an 8-byte buffer with [Read] and decoding that
    buffer with [Write], into any receiver [h0], gives back [h], field for
    field. *)
Theorem decode_encode_roundtrip (h h0 : PacketHeader) (bs : list byte) :
  PacketHeader_typed h ->
  length bs = 8%nat ->
  exists buf,
    Read h bs = Some (buf, 8, None) /\ Write h0 buf = Some (h, 8, None).
Proof.
  intros [HM HS HL HC HP HW] Hlen.
  destruct (eight_bytes bs Hlen) as (b0 & b1 & b2 & b3 & b4 & b5 & b6 & b7 & ->).
  rewrite Read_eight. eexists. split; [reflexivity |].
  rewrite Write_eight.
  rewrite (unsigned_of_Z_small (MsgType h)), (unsigned_of_Z_small (Status h)),
    (unsigned_of_Z_small (PacketNr h)), (unsigned_of_Z_small (Window h))
    by assumption.
  rewrite (unsigned_high (Length h)), (unsigned_high (Channel h)) by assumption.
  rewrite (unsigned_low (Length h)), (unsigned_low (Channel h)), !high_low_join.
  destruct h; reflexivity.
Qed.

Lemma decode_encode_roundtrip_witness :
  exists buf,
    Read {| MsgType := TDS_BUF_LOGIN; Status := 1; Length := 520;
            Channel := 3; PacketNr := 255; Window := 4 |}
         (replicate 8 Byte.x00) = Some (buf, 8, None)
    /\ Write (NewPacketHeader 0) buf
       = Some ({| MsgType := TDS_BUF_LOGIN; Status := 1; Length := 520;
                  Channel := 3; PacketNr := 255; Window := 4 |}, 8, None).
Proof.
  apply decode_encode_roundtrip; [constructor; cbn; unfold TDS_BUF_LOGIN; lia | reflexivity].
Defined.

(** C2. Layout: for every header, [Read] fills exactly eight bytes, which
    are, in order: [MsgType], [Status], the high then the low byte of
    [Length], the high then the low byte of [Channel], [PacketNr] and
    [Window]; nothing comes before, between or after them. *)
Theorem encode_layout (h : PacketHeader) (bs : list byte) :
  PacketHeader_typed h ->
  length bs = 8%nat ->
  exists out,
    Read h bs = Some (out, 8, None)
    /\ map byte.unsigned out
       = [ MsgType h; Status h;
           Length h / 2 ^ 8; Length h mod 2 ^ 8;
           Channel h / 2 ^ 8; Channel h mod 2 ^ 8;
           PacketNr h; Window h ]
    /\ 2 ^ 8 * (Length h / 2 ^ 8) + Length h mod 2 ^ 8 = Length h
    /\ 2 ^ 8 * (Channel h / 2 ^ 8) + Channel h mod 2 ^ 8 = Channel h.
Proof.
  intros [HM HS HL HC HP HW] Hlen.
  destruct (eight_bytes bs Hlen) as (b0 & b1 & b2 & b3 & b4 & b5 & b6 & b7 & ->).
  rewrite Read_eight. eexists. split; [reflexivity |].
  split; [| split; apply high_low_join].
  cbn [map].
  rewrite (unsigned_of_Z_small (MsgType h)), (unsigned_of_Z_small (Status h)),
    (unsigned_of_Z_small (PacketNr h)), (unsigned_of_Z_small (Window h))
    by assumption.
  rewrite (unsigned_high (Length h)), (unsigned_high (Channel h)) by assumption.
  rewrite (unsigned_low (Length h)), (unsigned_low (Channel h)). reflexivity.
Qed.

Lemma encode_layout_witness :
  exists out,
    Read {| MsgType := TDS_BUF_LOGIN; Status := 1; Length := 520;
            Channel := 3; PacketNr := 255; Window := 4 |}
         (replicate 8 Byte.xff) = Some (out, 8, None)
    /\ map byte.unsigned out = [2; 1; 2; 8; 0; 3; 255; 4].
Proof.
  destruct (encode_layout
              {| MsgType := TDS_BUF_LOGIN; Status := 1; Length := 520;
                 Channel := 3; PacketNr := 255; Window := 4 |}
              (replicate 8 Byte.xff))
    as (out & HR & Hmap & _);
    [constructor; cbn; unfold TDS_BUF_LOGIN; lia | reflexivity |].
  exists out. split; [exact HR | exact Hmap].
Defined.

(** C4. Buffer sizes: [Write] fails -- count 0, an error, the header as it
    was -- exactly when its input is not 8 bytes long, [Read] fails -- count
    0, an error, the buffer as it was -- exactly when its destination is not
    8 bytes long, and on every buffer of 8 bytes both succeed with count 8. *)
Theorem codec_fails_iff_not_eight (h : PacketHeader) (bs : list byte) :
  (length bs <> 8%nat <-> exists e, Write h bs = Some (h, 0, Some e))
  /\ (length bs <> 8%nat <-> exists e, Read h bs = Some (bs, 0, Some e))
  /\ (length bs = 8%nat ->
      exists h' out,
        Write h bs = Some (h', 8, None) /\ Read h bs = Some (out, 8, None)).
Proof.
  assert (length bs = 8%nat ->
          exists h' out,
            Write h bs = Some (h', 8, None) /\ Read h bs = Some (out, 8, None))
    as Hok.
  { intros Hlen.
    destruct (eight_bytes bs Hlen) as (b0 & b1 & b2 & b3 & b4 & b5 & b6 & b7 & ->).
    rewrite Write_eight, Read_eight. eauto. }
  repeat split.
  - intros Hlen. rewrite Write_other by exact Hlen. eauto.
  - intros [e He] Hlen. destruct (Hok Hlen) as (h' & out & HW & _).
    rewrite HW in He. discriminate He.
  - intros Hlen. rewrite Read_other by exact Hlen. eauto.
  - intros [e He] Hlen. destruct (Hok Hlen) as (h' & out & _ & HR).
    rewrite HR in He. discriminate He.
  - exact Hok.
Qed.

Lemma codec_fails_iff_not_eight_witness :
  (exists e, Write (NewPacketHeader 8) [Byte.x01; Byte.x02; Byte.x03]
             = Some (NewPacketHeader 8, 0, Some e))
  /\ (exists h' out,
        Write (NewPacketHeader 8) (replicate 8 Byte.x01) = Some (h', 8, None)
        /\ Read (NewPacketHeader 8) (replicate 8 Byte.x01) = Some (out, 8, None)).
Proof.
  split.
  - apply (codec_fails_iff_not_eight (NewPacketHeader 8)
             [Byte.x01; Byte.x02; Byte.x03]).
    cbn. lia.
  - apply (codec_fails_iff_not_eight (NewPacketHeader 8) (replicate 8 Byte.x01)).
    reflexivity.
Defined.

(** C8. [Write] is total on 8-byte inputs: it succeeds on every buffer of
    eight bytes, whatever they are (no check of [MsgType], [Status] or
    [Length]), and [Read] of the header it decoded, into any 8-byte
    destination, gives the same eight bytes back. *)
Theorem encode_decode_roundtrip (h0 : PacketHeader) (bs dst : list byte) :
  length bs = 8%nat ->
  length dst = 8%nat ->
  exists h,
    Write h0 bs = Some (h, 8, None) /\ Read h dst = Some (bs, 8, None).
Proof.
  intros Hlen Hdst.
  destruct (eight_bytes bs Hlen) as (b0 & b1 & b2 & b3 & b4 & b5 & b6 & b7 & ->).
  destruct (eight_bytes dst Hdst) as (d0 & d1 & d2 & d3 & d4 & d5 & d6 & d7 & ->).
  rewrite Write_eight. eexists. split; [reflexivity |].
  rewrite Read_eight. cbn [MsgType Status Length Channel PacketNr Window].
  rewrite !of_Z_high, !of_Z_low, !byte.of_Z_unsigned. reflexivity.
Qed.

Lemma encode_decode_roundtrip_witness :
  exists h,
    Write (NewPacketHeader 0)
          [Byte.xff; Byte.xff; Byte.x00; Byte.x03;
           Byte.xab; Byte.xcd; Byte.x00; Byte.xff]
    = Some (h, 8, None)
    /\ Read h (replicate 8 Byte.x00)
       = Some ([Byte.xff; Byte.xff; Byte.x00; Byte.x03;
                Byte.xab; Byte.xcd; Byte.x00; Byte.xff], 8, None).
Proof. apply encode_decode_roundtrip; reflexivity. Defined.

(** C9. [NewPacketHeader] on any argument: [Length] is the argument reduced
    modulo [2^16] -- its low 16 bits, so that arguments [2^16] apart give
    the same header, and a negative one wraps too -- and every other field
    is zero; zero is none of the [PacketHeaderType] constants, which start
    at 1. *)
Theorem NewPacketHeader_wraps (packetSize : Z) :
  NewPacketHeader packetSize
  = {| MsgType := 0; Status := 0; Length := packetSize mod 2 ^ 16;
       Channel := 0; PacketNr := 0; Window := 0 |}
  /\ Length (NewPacketHeader packetSize) = Z.land packetSize 0xFFFF
  /\ 0 <= Length (NewPacketHeader packetSize) < 2 ^ 16
  /\ NewPacketHeader (packetSize + 2 ^ 16) = NewPacketHeader packetSize
  /\ Length (NewPacketHeader 65544) = 8
  /\ Length (NewPacketHeader (-1)) = 65535
  /\ (MsgType (NewPacketHeader packetSize) ∉ PacketHeaderType_consts)
  /\ Forall (λ t, 1 <= t) PacketHeaderType_consts
  /\ head PacketHeaderType_consts = Some 1.
Proof.
  split; [reflexivity |].
  split; [symmetry; apply (Z.land_ones packetSize 16); lia |].
  split; [apply Z.mod_pos_bound; lia |].
  split.
  { unfold NewPacketHeader, uint16. f_equal.
    rewrite <- (Z.mul_1_l (2 ^ 16)) at 1. apply Z.mod_add. lia. }
  split; [reflexivity |]. split; [reflexivity |].
  split.
  { cbn [MsgType NewPacketHeader]. intros Hin.
    apply list_elem_of_In in Hin. cbv in Hin.
    repeat (destruct Hin as [Hin | Hin]; [discriminate Hin |]). exact Hin. }
  split; [| reflexivity].
  repeat constructor; cbv; discriminate.
Qed.

(** C5, as stated, fails: neither [NewPacketHeader] nor [Write] looks at the
    length.  [NewPacketHeader(0)] has [Length = 0], and so has the header
    decoded from eight zero bytes. *)
Lemma length_invariant_not_enforced :
  ~ (PacketHeaderSize <= Length (NewPacketHeader 0))
  /\ exists h,
       Write (NewPacketHeader 8) (replicate 8 Byte.x00) = Some (h, 8, None)
       /\ ~ (PacketHeaderSize <= Length h).
Proof.
  split; [cbv; intros H; apply H; reflexivity |].
  eexists. split; [reflexivity |].
  cbv. intros H. apply H. reflexivity.
Qed.

(** C5, amended.  [NewPacketHeader(8 + n)] for a payload length [n] with
    [0 <= n <= 65527] satisfies the length invariant; in general its
    [Length] is at least 8 exactly when the argument's residue modulo
    [2^16] is.  A header decoded by [Write] carries the big-endian 16-bit
    value of bytes 2 and 3 of its input, unchecked: its [Length] is at least
    8 exactly when that value is. *)
Theorem length_invariant_of_argument
    (n packetSize : Z) (h0 h : PacketHeader) (bs : list byte) :
  (0 <= n <= 2 ^ 16 - 1 - PacketHeaderSize ->
   length_invariant (NewPacketHeader (PacketHeaderSize + n)) n)
  /\ (PacketHeaderSize <= Length (NewPacketHeader packetSize)
      <-> PacketHeaderSize <= packetSize mod 2 ^ 16)
  /\ (Write h0 bs = Some (h, 8, None) ->
      exists b2 b3,
        bs !! 2%nat = Some b2 /\ bs !! 3%nat = Some b3
        /\ Length h = 2 ^ 8 * byte.unsigned b2 + byte.unsigned b3
        /\ (PacketHeaderSize <= Length h
            <-> PacketHeaderSize <= 2 ^ 8 * byte.unsigned b2 + byte.unsigned b3)).
Proof.
  split; [| split].
  - intros Hn. unfold length_invariant, PacketHeaderSize in *.
    cbn [Length NewPacketHeader]. rewrite uint16_small by lia. lia.
  - reflexivity.
  - intros HW. destruct (decide (length bs = 8%nat)) as [Hlen | Hlen].
    + destruct (eight_bytes bs Hlen)
        as (b0 & b1 & b2 & b3 & b4 & b5 & b6 & b7 & ->).
      rewrite Write_eight in HW. injection HW as <-.
      exists b2, b3. cbn [Length]. repeat split; auto.
    + rewrite Write_other in HW by exact Hlen. discriminate HW.
Qed.

Lemma length_invariant_of_argument_witness :
  length_invariant (NewPacketHeader (PacketHeaderSize + 504)) 504
  /\ exists b2 b3,
       [Byte.x01; Byte.x00; Byte.x02; Byte.x08;
        Byte.x00; Byte.x00; Byte.x00; Byte.x00] !! 2%nat = Some b2
       /\ [Byte.x01; Byte.x00; Byte.x02; Byte.x08;
           Byte.x00; Byte.x00; Byte.x00; Byte.x00] !! 3%nat = Some b3
       /\ 520 = 2 ^ 8 * byte.unsigned b2 + byte.unsigned b3.
Proof.
  destruct (length_invariant_of_argument 504 0 (NewPacketHeader 0)
              {| MsgType := 1; Status := 0; Length := 520;
                 Channel := 0; PacketNr := 0; Window := 0 |}
              [Byte.x01; Byte.x00; Byte.x02; Byte.x08;
               Byte.x00; Byte.x00; Byte.x00; Byte.x00])
    as (Hnew & _ & Hdec).
  split; [apply Hnew; cbv; split; discriminate |].
  destruct (Hdec eq_refl) as (b2 & b3 & H2 & H3 & HL & _).
  exists b2, b3. repeat split; assumption.
Defined.

(** ** Reading a header from a stream *)

(** C3. When the read [ReadFrom] performs returns zero bytes together with
    end of stream ([io.EOF], bare or wrapped), [ReadFrom] returns count 0
    and [ErrEOFAfterZeroRead], which is no [fmt.Errorf] value.  When the
    read returns some but fewer than 8 bytes, [ReadFrom] returns that count
    and an ordinary error made by [fmt.Errorf] around the reader's error:
    it is not [ErrEOFAfterZeroRead], and [errors.Is] finds
    [ErrEOFAfterZeroRead] in it only if the reader itself returned it.  The
    header is left as it was in both cases. *)
Theorem ReadFrom_closed_or_short (header : PacketHeader) (r : io_Reader) :
  let res := r (replicate 8 Byte.x00) in
  (read_n res = 0 -> errors.Is (read_err res) io_EOF = true ->
   ReadFrom header r = Some (header, 0, Some ErrEOFAfterZeroRead)
   /\ forall format operands wrapped,
        ErrEOFAfterZeroRead <> fmt_Errorf format operands wrapped)
  /\ (0 < read_n res < 8 ->
      exists e,
        ReadFrom header r = Some (header, read_n res, Some e)
        /\ e = fmt_Errorf "read %d of %d expected bytes from reader: %w"
                 [read_n res; 8] (read_err res)
        /\ e <> ErrEOFAfterZeroRead
        /\ errors.Is (Some e) ErrEOFAfterZeroRead
           = errors.Is (read_err res) ErrEOFAfterZeroRead).
Proof.
  intros res. split.
  - intros Hn HEOF. split; [| discriminate].
    unfold ReadFrom. fold res.
    change (replicate (Z.to_nat PacketHeaderSize) Byte.x00)
      with (replicate 8 Byte.x00).
    fold res. rewrite Hn. 
    destruct (decide _) as [_ | Hno].
    + destruct (decide _) as [_ | Hno]; [reflexivity |].
      exfalso. apply Hno. split; [reflexivity | exact HEOF].
    + exfalso. apply Hno. right. discriminate.
  - intros Hn. eexists. split; [| split; [reflexivity | split]].
    + unfold ReadFrom.
      change (replicate (Z.to_nat PacketHeaderSize) Byte.x00)
        with (replicate 8 Byte.x00).
      fold res.
      destruct (decide _) as [_ | Hno].
      * destruct (decide _) as [[Hz _] | _]; [lia | reflexivity].
      * exfalso. apply Hno. right. unfold PacketHeaderSize. lia.
    + discriminate.
    + destruct (read_err res); reflexivity.
Qed.

Lemma ReadFrom_closed_or_short_witness :
  ReadFrom (NewPacketHeader 8)
    (λ _, {| read_bytes := []; read_n := 0; read_err := Some io_EOF |})
  = Some (NewPacketHeader 8, 0, Some ErrEOFAfterZeroRead)
  /\ ReadFrom (NewPacketHeader 8)
       (λ _, {| read_bytes := [Byte.x01; Byte.x02; Byte.x03];
                read_n := 3; read_err := Some io_EOF |})
     = Some (NewPacketHeader 8, 3,
             Some (fmt_Errorf "read %d of %d expected bytes from reader: %w"
                     [3; 8] (Some io_EOF))).
Proof.
  split.
  - apply (ReadFrom_closed_or_short (NewPacketHeader 8)
             (λ _, {| read_bytes := []; read_n := 0;
                      read_err := Some io_EOF |}));
      reflexivity.
  - destruct (ReadFrom_closed_or_short (NewPacketHeader 8)
                (λ _, {| read_bytes := [Byte.x01; Byte.x02; Byte.x03];
                         read_n := 3; read_err := Some io_EOF |}))
      as [_ Hshort].
    destruct Hshort as (e & HR & -> & _); [cbn; lia |].
    exact HR.
Defined.

(** ** The generated [String] method *)

Lemma int64_small i : - 2 ^ 63 <= i < 2 ^ 63 -> int64 i = i.
Proof. intros Hi. unfold int64. rewrite Z.mod_small by lia. lia. Qed.

(** C10. [DynamicStatusType.String] is total: on every value of the type,
    whichever of Go's unsigned integer types it is declared as, the array
    and string indexing it does is in bounds, so it returns a string.  The
    string is the symbolic name on 0, 1, 2, 4 and 8, and
    ["DynamicStatusType(" n ")"] on every other value, with [n] the decimal
    form of the value converted to [int64] -- the value itself below
    [2^63]. *)
Theorem DynamicStatusType_String_total (bits i : Z) :
  DynamicStatusType.width_ok bits ->
  0 <= i < 2 ^ bits ->
  exists s,
    DynamicStatusType.String bits i = Some s
    /\ (i = TDS_DYNAMIC_UNUSED -> s = "TDS_DYNAMIC_UNUSED"%string)
    /\ (i = TDS_DYNAMIC_HASARGS -> s = "TDS_DYNAMIC_HASARGS"%string)
    /\ (i = TDS_DYNAMIC_SUPPRESS_FMT -> s = "TDS_DYNAMIC_SUPPRESS_FMT"%string)
    /\ (i = TDS_DYNAMIC_BATCH_PARAMS -> s = "TDS_DYNAMIC_BATCH_PARAMS"%string)
    /\ (i = TDS_DYNAMIC_SUPPRESS_PARAMFMT ->
        s = "TDS_DYNAMIC_SUPPRESS_PARAMFMT"%string)
    /\ (i <> 0 -> i <> 1 -> i <> 2 -> i <> 4 -> i <> 8 ->
        s = ("DynamicStatusType(" ++ strconv.FormatInt10 (int64 i) ++ ")")%string
        /\ (i < 2 ^ 63 -> int64 i = i)).
Proof.
  intros Hbits Hi.
  unfold TDS_DYNAMIC_UNUSED, TDS_DYNAMIC_HASARGS, TDS_DYNAMIC_SUPPRESS_FMT,
    TDS_DYNAMIC_BATCH_PARAMS, TDS_DYNAMIC_SUPPRESS_PARAMFMT.
  destruct (decide (i <= 2)) as [Hle | Hgt].
  - assert (i = 0 \/ i = 1 \/ i = 2) as [-> | [-> | ->]] by lia;
      destruct Hbits as [-> | [-> | [-> | ->]]];
      (eexists; split; [reflexivity |]);
      repeat split; intros; first [reflexivity | lia].
  - unfold DynamicStatusType.String.
    destruct (decide (i <= 2)) as [? | _]; [lia |].
    destruct (decide (i = 4)) as [-> | H4];
      [eexists; split; [reflexivity |];
       repeat split; intros; first [reflexivity | lia] |].
    destruct (decide (i = 8)) as [-> | H8];
      [eexists; split; [reflexivity |];
       repeat split; intros; first [reflexivity | lia] |].
    eexists; split; [reflexivity |].
    repeat split; intros; try lia; try reflexivity.
    apply int64_small. lia.
Qed.

Lemma DynamicStatusType_String_total_witness :
  exists s,
    DynamicStatusType.String 8 3 = Some s
    /\ s = ("DynamicStatusType(" ++ strconv.FormatInt10 (int64 3) ++ ")")%string
    /\ s = "DynamicStatusType(3)"%string.
Proof.
  destruct (DynamicStatusType_String_total 8 3) as (s & Hs & _ & _ & _ & _ & _ & Hother);
    [left; reflexivity | lia |].
  exists s. split; [exact Hs |].
  destruct Hother as [-> _]; [lia .. |]. split; reflexivity.
Defined.

(** ** The splitter and the assembler *)



(** The two equations of the carving loop. *)
Lemma carve_more cap o lastNr rest :
  (0 < cap < length rest)%nat ->
  carve cap o lastNr rest
  = wrap_chunk o (uint8 (lastNr + 1)) (out_status o) (take cap rest)
    :: carve cap o (uint8 (lastNr + 1)) (drop cap rest).
Proof.
  intros H. rewrite carve_equation_1.
  destruct (decide _) as [? | Hn]; [reflexivity | contradiction].
Qed.

Lemma carve_last cap o lastNr rest :
  ~ (0 < cap < length rest)%nat ->
  carve cap o lastNr rest
  = [wrap_chunk o (uint8 (lastNr + 1))
       (Z.lor (out_status o) TDS_BUFSTAT_EOM) rest].
Proof.
  intros H. rewrite carve_equation_1.
  destruct (decide _) as [Hy | ?]; [contradiction | reflexivity].
Qed.



Lemma has_EOM_set status : has_EOM (Z.lor status TDS_BUFSTAT_EOM) = true.
Proof.
  unfold has_EOM, TDS_BUFSTAT_EOM. apply negb_true_iff, Z.eqb_neq. intros H.
  apply (f_equal (λ z, Z.testbit z 0)) in H.
  rewrite Z.land_spec, Z.lor_spec, orb_true_r in H. discriminate H.
Qed.











(** C7. A payload of no bytes is split into exactly one packet: it has no
    payload, its [Length] is 8, the size of the header alone, and its
    status has the end-of-message bit; there is no other packet in the
    message to carry that bit. *)
Theorem split_empty_payload (M : Z) (o : Outbound) (lastNr : Z) :
  9 <= M ->
  exists p,
    Splitter M o lastNr [] = Some [p]
    /\ payload p = []
    /\ Length (header p) = 8
    /\ has_EOM (Status (header p)) = true
    /\ MsgType (header p) = out_msgType o
    /\ Channel (header p) = out_channel o
    /\ forall pkts q,
         Splitter M o lastNr [] = Some pkts -> q ∈ pkts ->
         has_EOM (Status (header q)) = true -> q = p.
Proof.
  intros HM. unfold Splitter.
  destruct (decide (9 <= M)) as [_ | Hno]; [| contradiction].
  rewrite carve_last by (cbn [length]; lia).
  eexists. split; [reflexivity |].
  split; [reflexivity |]. split; [reflexivity |].
  split; [apply has_EOM_set |].
  split; [reflexivity |]. split; [reflexivity |].
  intros pkts q Hpkts Hq _. injection Hpkts as <-.
  apply list_elem_of_singleton in Hq. exact Hq.
Qed.

Lemma split_empty_payload_witness :
  exists p,
    Splitter 512
      {| out_channel := 0; out_msgType := TDS_BUF_ATTN; out_status := 0 |}
      0 [] = Some [p]
    /\ payload p = []
    /\ Length (header p) = 8
    /\ has_EOM (Status (header p)) = true.
Proof.
  destruct (split_empty_payload 512
              {| out_channel := 0; out_msgType := TDS_BUF_ATTN;
                 out_status := 0 |} 0)
    as (p & Hsplit & Hpay & Hlen & Heom & _); [lia |].
  exists p. repeat split; assumption.
Defined.

(** * Further properties of the package *)

(** ** More on the codec *)

(** [Read] overwrites all eight bytes of its destination: what the buffer
    held before has no influence on what it holds after. *)
Theorem Read_ignores_destination (h : PacketHeader) (bs bs' : list byte) :
  length bs = 8%nat -> length bs' = 8%nat -> Read h bs = Read h bs'.
Proof.
  intros Hlen Hlen'.
  destruct (eight_bytes bs Hlen) as (b0 & b1 & b2 & b3 & b4 & b5 & b6 & b7 & ->).
  destruct (eight_bytes bs' Hlen')
    as (c0 & c1 & c2 & c3 & c4 & c5 & c6 & c7 & ->).
  rewrite !Read_eight. reflexivity.
Qed.

Lemma Read_ignores_destination_witness :
  Read (NewPacketHeader 520) (replicate 8 Byte.x00)
  = Read (NewPacketHeader 520) (replicate 8 Byte.xff).
Proof. apply Read_ignores_destination; reflexivity. Defined.

(** [Write] assigns every field of its receiver: what the receiver held
    before has no influence on the header decoded from eight bytes. *)
Theorem Write_ignores_receiver (h h' : PacketHeader) (bs : list byte) :
  length bs = 8%nat -> Write h bs = Write h' bs.
Proof.
  intros Hlen.
  destruct (eight_bytes bs Hlen) as (b0 & b1 & b2 & b3 & b4 & b5 & b6 & b7 & ->).
  rewrite !Write_eight. reflexivity.
Qed.

Lemma Write_ignores_receiver_witness :
  Write (NewPacketHeader 0) (replicate 8 Byte.x07)
  = Write {| MsgType := 1; Status := 1; Length := 9; Channel := 2;
             PacketNr := 3; Window := 4 |} (replicate 8 Byte.x07).
Proof. apply Write_ignores_receiver; reflexivity. Defined.

(** Two headers that [Read] encodes to the same bytes are the same header. *)
Theorem Read_injective (h h' : PacketHeader) (bs bs' out : list byte) :
  PacketHeader_typed h -> PacketHeader_typed h' ->
  Read h bs = Some (out, 8, None) -> Read h' bs' = Some (out, 8, None) ->
  h = h'.
Proof.
  intros Ht Ht' HR HR'.
  assert (forall g cs, PacketHeader_typed g -> Read g cs = Some (out, 8, None) ->
            Write (NewPacketHeader 0) out = Some (g, 8, None)) as Hdec.
  { intros g cs [HM HS HL HC HP HW] Hg.
    destruct (decide (length cs = 8%nat)) as [Hlen | Hlen];
      [| rewrite Read_other in Hg by exact Hlen; discriminate Hg].
    destruct (eight_bytes cs Hlen)
      as (b0 & b1 & b2 & b3 & b4 & b5 & b6 & b7 & ->).
    rewrite Read_eight in Hg. injection Hg as <-.
    rewrite Write_eight.
    rewrite (unsigned_of_Z_small (MsgType g)), (unsigned_of_Z_small (Status g)),
      (unsigned_of_Z_small (PacketNr g)), (unsigned_of_Z_small (Window g))
      by assumption.
    rewrite (unsigned_high (Length g)), (unsigned_high (Channel g)) by assumption.
    rewrite (unsigned_low (Length g)), (unsigned_low (Channel g)), !high_low_join.
    destruct g; reflexivity. }
  pose proof (Hdec h bs Ht HR) as H1. pose proof (Hdec h' bs' Ht' HR') as H2.
  rewrite H1 in H2. injection H2 as ->. reflexivity.
Qed.

Lemma Read_injective_witness :
  {| MsgType := 1; Status := 1; Length := 9; Channel := 2;
     PacketNr := 3; Window := 4 |}
  = set_Window 4 (set_PacketNr 3 (set_Channel 2 (set_Status 1 (set_MsgType 1
      (NewPacketHeader 9))))).
Proof.
  apply (Read_injective _ _ (replicate 8 Byte.x00) (replicate 8 Byte.xff)
           [Byte.x01; Byte.x01; Byte.x00; Byte.x09;
            Byte.x00; Byte.x02; Byte.x03; Byte.x04]);
    first [reflexivity | constructor; cbv; split; congruence].
Defined.

(** Two buffers that [Write] decodes to the same header are the same
    eight bytes. *)
Theorem Write_injective (h0 h0' h : PacketHeader) (bs bs' : list byte) :
  Write h0 bs = Some (h, 8, None) -> Write h0' bs' = Some (h, 8, None) ->
  bs = bs'.
Proof.
  assert (forall g cs, Write g cs = Some (h, 8, None) ->
            Read h (replicate 8 Byte.x00) = Some (cs, 8, None)) as Henc.
  { intros g cs Hg.
    destruct (decide (length cs = 8%nat)) as [Hlen | Hlen];
      [| rewrite Write_other in Hg by exact Hlen; discriminate Hg].
    destruct (eight_bytes cs Hlen)
      as (b0 & b1 & b2 & b3 & b4 & b5 & b6 & b7 & ->).
    rewrite Write_eight in Hg. injection Hg as <-.
    change (replicate 8 Byte.x00)
      with [Byte.x00; Byte.x00; Byte.x00; Byte.x00;
            Byte.x00; Byte.x00; Byte.x00; Byte.x00].
    rewrite Read_eight. cbn [MsgType Status Length Channel PacketNr Window].
    rewrite !of_Z_high, !of_Z_low, !byte.of_Z_unsigned. reflexivity. }
  intros H1 H2. apply Henc in H1, H2. rewrite H1 in H2.
  injection H2 as ->. reflexivity.
Qed.

Lemma Write_injective_witness :
  [Byte.x01; Byte.x01; Byte.x00; Byte.x09;
   Byte.x00; Byte.x02; Byte.x03; Byte.x04]
  = map byte.of_Z [1; 1; 0; 9; 0; 2; 3; 4].
Proof.
  apply (Write_injective (NewPacketHeader 0) (NewPacketHeader 8)
           {| MsgType := 1; Status := 1; Length := 9; Channel := 2;
              PacketNr := 3; Window := 4 |});
    reflexivity.
Defined.

(** ** Headers on a stream *)

(** [WriteTo] never fails on its own account: it hands the writer, in one
    call, exactly the eight bytes [Read] encodes the header to, and returns
    the count and the error of the writer as they are. *)
Theorem WriteTo_hands_encoding (h : PacketHeader) :
  exists sent,
    length sent = 8%nat
    /\ Read h (replicate 8 Byte.x00) = Some (sent, 8, None)
    /\ forall w : io_Writer, WriteTo h w = Some (w sent).
Proof.
  exists [ byte.of_Z (MsgType h); byte.of_Z (Status h);
           byte.of_Z (Z.shiftr (Length h) 8); byte.of_Z (Length h);
           byte.of_Z (Z.shiftr (Channel h) 8); byte.of_Z (Channel h);
           byte.of_Z (PacketNr h); byte.of_Z (Window h) ].
  split; [reflexivity |]. split; [apply Read_eight |].
  intros w. reflexivity.
Qed.

(** What [WriteTo] wrote, [ReadFrom] reads back: when the reader delivers
    the eight bytes the writer was handed, with count 8 and no error,
    [ReadFrom] leaves the header that was written in its receiver. *)
Theorem WriteTo_ReadFrom_roundtrip (h : PacketHeader) :
  PacketHeader_typed h ->
  exists sent,
    (forall w : io_Writer, WriteTo h w = Some (w sent))
    /\ forall (h0 : PacketHeader) (r : io_Reader),
         r (replicate 8 Byte.x00)
         = {| read_bytes := sent; read_n := 8; read_err := None |} ->
         ReadFrom h0 r = Some (h, 8, None).
Proof.
  intros [HM HS HL HC HP HW].
  exists [ byte.of_Z (MsgType h); byte.of_Z (Status h);
           byte.of_Z (Z.shiftr (Length h) 8); byte.of_Z (Length h);
           byte.of_Z (Z.shiftr (Channel h) 8); byte.of_Z (Channel h);
           byte.of_Z (PacketNr h); byte.of_Z (Window h) ].
  split; [intros w; reflexivity |].
  intros h0 r Hr. unfold ReadFrom.
  change (replicate (Z.to_nat PacketHeaderSize) Byte.x00)
    with (replicate 8 Byte.x00).
  rewrite Hr. cbn [read_bytes read_n read_err].
  destruct (decide _) as [[Hbad | Hbad] | _]; [congruence | contradiction |].
  unfold overlay. cbn [length replicate app drop take].
  rewrite Write_eight.
  rewrite (unsigned_of_Z_small (MsgType h)), (unsigned_of_Z_small (Status h)),
    (unsigned_of_Z_small (PacketNr h)), (unsigned_of_Z_small (Window h))
    by assumption.
  rewrite (unsigned_high (Length h)), (unsigned_high (Channel h)) by assumption.
  rewrite (unsigned_low (Length h)), (unsigned_low (Channel h)), !high_low_join.
  destruct h; reflexivity.
Qed.

Lemma WriteTo_ReadFrom_roundtrip_witness :
  exists sent,
    (forall w : io_Writer,
       WriteTo {| MsgType := TDS_BUF_RESPONSE; Status := TDS_BUFSTAT_EOM;
                  Length := 512; Channel := 0; PacketNr := 0; Window := 0 |} w
       = Some (w sent))
    /\ forall (h0 : PacketHeader) (r : io_Reader),
         r (replicate 8 Byte.x00)
         = {| read_bytes := sent; read_n := 8; read_err := None |} ->
         ReadFrom h0 r
         = Some ({| MsgType := TDS_BUF_RESPONSE; Status := TDS_BUFSTAT_EOM;
                    Length := 512; Channel := 0; PacketNr := 0; Window := 0 |},
                 8, None).
Proof.
  apply WriteTo_ReadFrom_roundtrip. constructor; cbv; split; congruence.
Defined.

Lemma overlay_length (written bs : list byte) :
  length (overlay written bs) = length bs.
Proof.
  unfold overlay. rewrite length_take, length_app, length_drop. lia.
Qed.

(** [ReadFrom] returns no error exactly when the one read it performs
    returned eight bytes and no error.  Then the count is 8 and the header
    is the one [Write] decodes from the buffer the reader filled.  In every
    other case -- a short read is not retried, and a full read that comes
    with an error, [io.EOF] included, is dropped -- it returns an error and
    leaves the header as it was.  It never panics. *)
Theorem ReadFrom_succeeds_iff (h : PacketHeader) (r : io_Reader) :
  let res := r (replicate 8 Byte.x00) in
  exists h' n err,
    ReadFrom h r = Some (h', n, err)
    /\ (err = None <-> read_err res = None /\ read_n res = 8)
    /\ (err = None ->
        n = 8
        /\ Write h (overlay (read_bytes res) (replicate 8 Byte.x00))
           = Some (h', 8, None))
    /\ (err <> None -> h' = h).
Proof.
  intros res. unfold ReadFrom.
  change (replicate (Z.to_nat PacketHeaderSize) Byte.x00)
    with (replicate 8 Byte.x00).
  fold res.
  destruct (decide (read_err res ≠ None ∨ read_n res ≠ PacketHeaderSize))
    as [Hbad | Hgood].
  - assert (~ (read_err res = None /\ read_n res = 8)) as Hnot
      by (intros [? ?]; destruct Hbad; contradiction).
    destruct (decide _);
      do 3 eexists; (split; [reflexivity |]);
      (split; [split; [discriminate | intros ?; contradiction] |]);
      (split; [discriminate | reflexivity]).
  - assert (read_err res = None /\ read_n res = 8) as Hok.
    { split.
      - destruct (read_err res); [exfalso; apply Hgood; left; discriminate |].
        reflexivity.
      - destruct (decide (read_n res = 8)); [assumption |].
        exfalso. apply Hgood. right. assumption. }
    destruct (eight_bytes (overlay (read_bytes res) (replicate 8 Byte.x00)))
      as (b0 & b1 & b2 & b3 & b4 & b5 & b6 & b7 & Hbuf);
      [apply overlay_length |].
    rewrite Hbuf, Write_eight.
    do 3 eexists. split; [reflexivity |].
    split; [split; [intros _; exact Hok | reflexivity] |].
    split; [intros _; split; reflexivity | intros Hne; contradiction].
Qed.

(** [ReadFrom] returns [ErrEOFAfterZeroRead] exactly when the read returned
    count 0 and an error in whose chain [errors.Is] finds [io.EOF]; the
    count it returns is then 0. *)
Theorem ReadFrom_sentinel_iff (h : PacketHeader) (r : io_Reader) :
  let res := r (replicate 8 Byte.x00) in
  (exists h' n, ReadFrom h r = Some (h', n, Some ErrEOFAfterZeroRead))
  <-> read_n res = 0 /\ errors.Is (read_err res) io_EOF = true.
Proof.
  intros res. unfold ReadFrom.
  change (replicate (Z.to_nat PacketHeaderSize) Byte.x00)
    with (replicate 8 Byte.x00).
  fold res. split.
  - intros (h' & n & Hres).
    destruct (decide (read_err res ≠ None ∨ read_n res ≠ PacketHeaderSize))
      as [Hbad | Hgood].
    + destruct (decide (read_n res = 0 ∧ errors.Is (read_err res) io_EOF = true))
        as [Hz | _]; [exact Hz | discriminate Hres].
    + destruct (eight_bytes (overlay (read_bytes res) (replicate 8 Byte.x00)))
        as (b0 & b1 & b2 & b3 & b4 & b5 & b6 & b7 & Hbuf);
        [apply overlay_length |].
      rewrite Hbuf, Write_eight in Hres. discriminate Hres.
  - intros [Hn HEOF].
    destruct (decide (read_err res ≠ None ∨ read_n res ≠ PacketHeaderSize))
      as [Hbad | Hgood].
    + destruct (decide (read_n res = 0 ∧ errors.Is (read_err res) io_EOF = true))
        as [_ | Hno]; [eauto | exfalso; apply Hno; auto].
    + exfalso. apply Hgood. right. rewrite Hn. discriminate.
Qed.

Lemma ReadFrom_succeeds_iff_witness :
  exists h' n err,
    ReadFrom (NewPacketHeader 8)
      (λ _, {| read_bytes := replicate 8 Byte.x01; read_n := 8;
               read_err := Some io_EOF |})
    = Some (h', n, err)
    /\ err <> None /\ h' = NewPacketHeader 8.
Proof.
  destruct (ReadFrom_succeeds_iff (NewPacketHeader 8)
              (λ _, {| read_bytes := replicate 8 Byte.x01; read_n := 8;
                       read_err := Some io_EOF |}))
    as (h' & n & err & Hres & Hiff & _ & Hkeep).
  assert (err <> None) as Hne.
  { intros Herr. apply Hiff in Herr. destruct Herr as [Herr _].
    discriminate Herr. }
  exists h', n, err. split; [exact Hres |]. split; [exact Hne |].
  exact (Hkeep Hne).
Defined.

Lemma ReadFrom_sentinel_iff_witness :
  exists h' n,
    ReadFrom (NewPacketHeader 8)
      (λ _, {| read_bytes := [];  read_n := 0;
               read_err :=
                 Some (fmt_Errorf "connection lost: %w" [] (Some io_EOF)) |})
    = Some (h', n, Some ErrEOFAfterZeroRead).
Proof.
  apply (ReadFrom_sentinel_iff (NewPacketHeader 8)
           (λ _, {| read_bytes := []; read_n := 0;
                    read_err :=
                      Some (fmt_Errorf "connection lost: %w" [] (Some io_EOF)) |})).
  split; reflexivity.
Defined.

(** ** More on the generated [String] method *)

Lemma FormatInt10_inj a b :
  strconv.FormatInt10 a = strconv.FormatInt10 b -> a = b.
Proof.
  unfold strconv.FormatInt10. intros H.
  assert (forall z, NilZero.int_of_string (NilZero.string_of_int (Z.to_int z))
                    = Some (Z.to_int z)) as Hparse.
  { intros z. apply NilZero.isi; destruct z; cbn; try discriminate;
      intros [= Hnil]; exact (DecimalPos.Unsigned.to_uint_nonnil _ Hnil). }
  apply (f_equal NilZero.int_of_string) in H. rewrite !Hparse in H.
  injection H as H. apply (f_equal Z.of_int) in H.
  rewrite !DecimalZ.of_to in H. exact H.
Qed.

Lemma append_inj_l (p s t : string) : (p ++ s = p ++ t)%string -> s = t.
Proof. induction p as [| c p IH]; cbn; [auto | intros [= H]; auto]. Qed.

Lemma string_length_append (s t : string) :
  String.length (s ++ t) = (String.length s + String.length t)%nat.
Proof. induction s as [| c s IH]; simpl; [reflexivity | f_equal; exact IH]. Qed.

Lemma append_inj_r (u s t : string) : (s ++ u = t ++ u)%string -> s = t.
Proof.
  revert t. induction s as [| c s IH]; intros [| d t] H; simpl in H.
  - reflexivity.
  - apply (f_equal String.length) in H.
    rewrite ?string_length_append in H. simpl in H.
    rewrite ?string_length_append in H. lia.
  - apply (f_equal String.length) in H.
    rewrite ?string_length_append in H. simpl in H.
    rewrite ?string_length_append in H. lia.
  - injection H as -> H. f_equal. apply IH, H.
Qed.

Lemma int64_inj i j :
  0 <= i < 2 ^ 64 -> 0 <= j < 2 ^ 64 -> int64 i = int64 j -> i = j.
Proof.
  assert (forall k, 0 <= k < 2 ^ 64 ->
            int64 k = if decide (k < 2 ^ 63) then k else k - 2 ^ 64) as Hval.
  { intros k Hk. unfold int64. destruct (decide (k < 2 ^ 63)).
    - rewrite Z.mod_small by lia. lia.
    - replace (k + 2 ^ 63) with (k - 2 ^ 63 + 1 * 2 ^ 64) by lia.
      rewrite Z.mod_add by lia. rewrite Z.mod_small by lia. lia. }
  intros Hi Hj. rewrite (Hval i Hi), (Hval j Hj).
  repeat destruct (decide _); lia.
Qed.

(** [String] tells all values apart: two values of the type with the same
    string are the same value. *)
Theorem DynamicStatusType_String_injective (bits i j : Z) :
  DynamicStatusType.width_ok bits ->
  0 <= i < 2 ^ bits -> 0 <= j < 2 ^ bits ->
  DynamicStatusType.String bits i = DynamicStatusType.String bits j ->
  i = j.
Proof.
  intros Hbits Hi Hj.
  assert (2 ^ bits <= 2 ^ 64) as Hmax
    by (destruct Hbits as [-> | [-> | [-> | ->]]]; lia).
  assert (forall k, 0 <= k < 2 ^ bits ->
    DynamicStatusType.String bits k
    = Some (if decide (k = 0) then "TDS_DYNAMIC_UNUSED"
            else if decide (k = 1) then "TDS_DYNAMIC_HASARGS"
            else if decide (k = 2) then "TDS_DYNAMIC_SUPPRESS_FMT"
            else if decide (k = 4) then "TDS_DYNAMIC_BATCH_PARAMS"
            else if decide (k = 8) then "TDS_DYNAMIC_SUPPRESS_PARAMFMT"
            else ("DynamicStatusType(" ++ strconv.FormatInt10 (int64 k) ++ ")"))%string)
    as Hval.
  { intros k Hk. destruct (decide (k <= 2)) as [Hle | Hgt].
    - assert (k = 0 \/ k = 1 \/ k = 2) as [-> | [-> | ->]] by lia;
        destruct Hbits as [-> | [-> | [-> | ->]]]; reflexivity.
    - unfold DynamicStatusType.String.
      destruct (decide (k <= 2)) as [? | _]; [lia |].
      repeat (destruct (decide _) as [? | ?]; try lia); reflexivity. }
  rewrite (Hval i Hi), (Hval j Hj). intros [= H]. revert H.
  repeat (destruct (decide _) as [-> | ?]); try reflexivity;
    try (intros H; discriminate H).
  intros H. apply append_inj_l, append_inj_r, FormatInt10_inj in H.
  apply int64_inj; [lia | lia | exact H].
Qed.

Lemma DynamicStatusType_String_injective_witness : 6 = 2 + 4.
Proof.
  apply (DynamicStatusType_String_injective 8 6 (2 + 4));
    [left; reflexivity | lia | lia | reflexivity].
Defined.

(** ** Package [dsn] *)

(** The names [tagToField] maps, with and without the [multiref] tags.  A
    field with no [multiref] tag contributes the empty name, which stays
    with the last such field, [TLSCAFile] (index 11); [ConnectProps] has no
    name. *)
Theorem tagToField_tables :
  dsn.tagToField true
  = Some (list_to_map
            [ ("host", 0); ("hostname", 0); ("port", 1); ("username", 2);
              ("user", 2); ("password", 3); ("passwd", 3); ("pass", 3);
              ("userstorekey", 4); ("key", 4); ("database", 5); ("db", 5);
              ("client-hostname", 6); ("packet-read-timeout", 7); ("tls", 8);
              ("tls-hostname", 9); ("ssl", 9); ("tls-skip-validation", 10);
              ("tls-ca", 11); ("", 11) ]%nat)
  /\ dsn.tagToField false
     = Some (list_to_map
               [ ("host", 0); ("port", 1); ("username", 2); ("password", 3);
                 ("userstorekey", 4); ("database", 5); ("client-hostname", 6);
                 ("packet-read-timeout", 7); ("tls", 8); ("tls-hostname", 9);
                 ("tls-skip-validation", 10); ("tls-ca", 11) ]%nat).
Proof.
  split.
  - vm_cast_no_check (@eq_refl _ (dsn.tagToField true)).
  - vm_cast_no_check (@eq_refl _ (dsn.tagToField false)).
Qed.

(** The map [SetField] looks its key up in. *)
Lemma tagToField_true_eq :
  dsn.tagToField true
  = Some (list_to_map
            [ ("host", 0); ("hostname", 0); ("port", 1); ("username", 2);
              ("user", 2); ("password", 3); ("passwd", 3); ("pass", 3);
              ("userstorekey", 4); ("key", 4); ("database", 5); ("db", 5);
              ("client-hostname", 6); ("packet-read-timeout", 7); ("tls", 8);
              ("tls-hostname", 9); ("ssl", 9); ("tls-skip-validation", 10);
              ("tls-ca", 11); ("", 11) ]%nat).
Proof. vm_cast_no_check (@eq_refl _ (dsn.tagToField true)). Qed.

(** [SetField], by the field its key resolves to. *)
Lemma SetField_by_field info key value :
  dsn.SetField info key value
  = match dsn.field_of_key key with
    | None =>
        props ← dsn.ConnectProps info;
        Some (dsn.set_ConnectProps (Some (dsn.Values_Add props key value)) info,
              None)
    | Some i =>
        f ← dsn.Info_fields !! i;
        match dsn.FieldKind f with
        | dsn.Kind_String =>
            info ← dsn.SetString info i value; Some (info, None)
        | dsn.Kind_Bool =>
            match dsn.strconv_ParseBool value with
            | (b, None) => info ← dsn.SetBool info i b; Some (info, None)
            | (_, Some err) =>
                Some (info,
                      Some (dsn.Errorf
                              "error parsing '%s' as bool for field %s: %w"
                              [value; key] (Some err)))
            end
        | k => Some (info,
                     Some (dsn.Errorf "unhandled field kind: %s"
                             [dsn.Kind_name k] None))
        end
    end.
Proof.
  unfold dsn.SetField, dsn.field_of_key.
  rewrite tagToField_true_eq. reflexivity.
Qed.

Tactic Notation "each_field" ident(i) :=
  do 13 (try (destruct i as [| i])).

(** A key that names a field of kind string, by its [json] name or by one
    of its [multiref] names: [SetField] stores the value in that field,
    returns no error and leaves every other field, [ConnectProps]
    included, as it was. *)
Theorem SetField_string_field info key value i :
  dsn.field_of_key key = Some i ->
  dsn.FieldKind <$> dsn.Info_fields !! i = Some dsn.Kind_String ->
  exists info',
    dsn.SetField info key value = Some (info', None)
    /\ dsn.Field info' i = Some (dsn.V_String value)
    /\ forall j, j <> i -> dsn.Field info' j = dsn.Field info j.
Proof.
  intros Hkey Hkind. rewrite SetField_by_field, Hkey.
  destruct info.
  each_field i; cbn in Hkind; try discriminate Hkind;
    (eexists; split; [reflexivity |]; split; [reflexivity |]);
    intros j Hj; each_field j; first [reflexivity | contradiction].
Qed.

(** The index a key resolves to is that of one of the first twelve fields. *)
Lemma field_of_key_range key i :
  dsn.field_of_key key = Some i -> (i < 12)%nat.
Proof.
  unfold dsn.field_of_key. rewrite tagToField_true_eq. cbn [mbind option_bind].
  intros H. apply elem_of_list_to_map_2 in H.
  repeat (apply elem_of_cons in H; destruct H as [[= _ <-] | H]; [lia |]).
  apply elem_of_nil in H. contradiction.
Qed.

(** A key that names a field of kind bool: [SetField] accepts exactly the
    twelve spellings [strconv.ParseBool] knows, stores the truth value in
    that field and leaves the others alone; on any other value it returns
    the wrapped syntax error and leaves the [Info] as it was. *)
Theorem SetField_bool_field info key value i :
  dsn.field_of_key key = Some i ->
  dsn.FieldKind <$> dsn.Info_fields !! i = Some dsn.Kind_Bool ->
  (forall b,
     (b = true /\ value ∈ ["1"; "t"; "T"; "true"; "TRUE"; "True"]
      \/ b = false /\ value ∈ ["0"; "f"; "F"; "false"; "FALSE"; "False"]) ->
     exists info',
       dsn.SetField info key value = Some (info', None)
       /\ dsn.Field info' i = Some (dsn.V_Bool b)
       /\ forall j, j <> i -> dsn.Field info' j = dsn.Field info j)
  /\ (value ∉ ["1"; "t"; "T"; "true"; "TRUE"; "True";
               "0"; "f"; "F"; "false"; "FALSE"; "False"] ->
      dsn.SetField info key value
      = Some (info,
              Some (dsn.Errorf "error parsing '%s' as bool for field %s: %w"
                      [value; key]
                      (Some (dsn.NumError "ParseBool" value))))).
Proof.
  intros Hkey Hkind. rewrite SetField_by_field, Hkey.
  assert (i = 8 \/ i = 10)%nat as Hi.
  { each_field i; cbn in Hkind; try discriminate Hkind; auto. }
  split.
  - intros b Hb.
    assert (dsn.strconv_ParseBool value = (b, None)) as Hparse.
    { unfold dsn.strconv_ParseBool.
      destruct Hb as [[-> Hin] | [-> Hin]].
      - rewrite bool_decide_eq_true_2 by exact Hin. reflexivity.
      - rewrite bool_decide_eq_false_2.
        + rewrite bool_decide_eq_true_2 by exact Hin. reflexivity.
        + intros Hin'. set_unfold. intuition congruence. }
    destruct info.
    destruct Hi as [-> | ->]; cbn; rewrite Hparse;
      (eexists; split; [reflexivity |]; split; [reflexivity |]);
      intros j Hj; each_field j; first [reflexivity | contradiction].
  - intros Hnot.
    assert (dsn.strconv_ParseBool value
            = (false, Some (dsn.NumError "ParseBool" value))) as Hparse.
    { unfold dsn.strconv_ParseBool.
      rewrite !bool_decide_eq_false_2; [reflexivity | |];
        intros Hin; apply Hnot; set_unfold; intuition congruence. }
    destruct Hi as [-> | ->]; cbn; rewrite Hparse; reflexivity.
Qed.

(** A key that names a field of kind int -- [packet-read-timeout] is the
    one there is -- cannot be set: [SetField] returns the error
    ["unhandled field kind: int"] whatever the value, and leaves the [Info]
    as it was. *)
Theorem SetField_int_field info key value i :
  dsn.field_of_key key = Some i ->
  dsn.FieldKind <$> dsn.Info_fields !! i = Some dsn.Kind_Int ->
  dsn.SetField info key value
  = Some (info, Some (dsn.Errorf "unhandled field kind: %s" ["int"] None)).
Proof.
  intros Hkey Hkind. rewrite SetField_by_field, Hkey.
  each_field i; cbn in Hkind; try discriminate Hkind. reflexivity.
Qed.

Lemma last_index {A} (l : list A) (x : A) :
  (l ++ [x]) !! (length (l ++ [x]) - 1)%nat = Some x.
Proof.
  rewrite length_app. cbn [length].
  replace (length l + 1 - 1)%nat with (length l + 0)%nat by lia.
  rewrite lookup_app_r by lia.
  replace (length l + 0 - length l)%nat with 0%nat by lia. reflexivity.
Qed.

(** A key that names no field goes to [ConnectProps]: after [SetField],
    [Prop] of that key is the value just set, whatever was set for it
    before, [PropDefault] is the value unless it is empty, and the other
    properties and all the fields are as they were. *)
Theorem SetField_property info key value props :
  dsn.field_of_key key = None ->
  dsn.ConnectProps info = Some props ->
  exists info',
    dsn.SetField info key value = Some (info', None)
    /\ dsn.Info_Prop info' key = Some value
    /\ (forall d, dsn.PropDefault info' key d
                  = Some (if decide (value = "") then d else value))
    /\ (forall k, k <> key -> dsn.Info_Prop info' k = dsn.Info_Prop info k)
    /\ (forall j, j <> 12%nat -> dsn.Field info' j = dsn.Field info j).
Proof.
  intros Hkey Hprops. rewrite SetField_by_field, Hkey, Hprops.
  cbn [mbind option_bind]. eexists. split; [reflexivity |].
  assert (dsn.Info_Prop
            (dsn.set_ConnectProps (Some (dsn.Values_Add props key value)) info)
            key = Some value) as HProp.
  { destruct info. unfold dsn.Info_Prop, dsn.Values_Add.
    cbn [dsn.set_ConnectProps dsn.ConnectProps].
    rewrite lookup_insert_eq.
    destruct (decide _) as [Hlen | _].
    - rewrite length_app in Hlen. cbn in Hlen. lia.
    - apply last_index. }
  split; [exact HProp |]. split; [| split].
  - intros d. unfold dsn.PropDefault. rewrite HProp. cbn [mbind option_bind].
    destruct (decide (value ≠ "")), (decide (value = "")); first [reflexivity | tauto].
  - intros k Hk. destruct info. unfold dsn.Info_Prop, dsn.Values_Add.
    cbn [dsn.set_ConnectProps dsn.ConnectProps] in *. subst.
    rewrite lookup_insert_ne by congruence. reflexivity.
  - intros j Hj. destruct info. each_field j; first [reflexivity | contradiction].
Qed.

(** [SetField] panics exactly on a key that is no field name when
    [ConnectProps] is [nil]. *)
Theorem SetField_panics_iff info key value :
  dsn.SetField info key value = None
  <-> dsn.field_of_key key = None /\ dsn.ConnectProps info = None.
Proof.
  rewrite SetField_by_field.
  destruct (dsn.field_of_key key) as [i |] eqn:Hkey.
  - split; [| intros [? _]; discriminate].
    pose proof (field_of_key_range key i Hkey) as Hi.
    destruct info. unfold dsn.strconv_ParseBool.
    each_field i; try lia; cbn; repeat case_bool_decide; discriminate.
  - destruct (dsn.ConnectProps info); cbn; split;
      [discriminate | intros [_ ?]; discriminate | auto | auto].
Qed.

(** [SetField] keeps a [ConnectProps] that is not [nil] that way. *)
Lemma SetField_keeps_props info key value :
  is_Some (dsn.ConnectProps info) ->
  exists info' err,
    dsn.SetField info key value = Some (info', err)
    /\ is_Some (dsn.ConnectProps info').
Proof.
  intros [props Hprops]. rewrite SetField_by_field.
  destruct (dsn.field_of_key key) as [i |] eqn:Hkey.
  - pose proof (field_of_key_range key i Hkey) as Hi.
    destruct info. cbn in Hprops. subst. unfold dsn.strconv_ParseBool.
    each_field i; try lia; cbn; repeat case_bool_decide; eauto.
  - rewrite Hprops. cbn. destruct info. cbn. eauto.
Qed.

(** Starting from an [Info] whose [ConnectProps] is not [nil], as [NewInfo]
    makes it, no sequence of [SetField] calls panics, and [ConnectProps]
    stays non-[nil]. *)
Theorem SetField_each_total kvs :
  forall info,
  is_Some (dsn.ConnectProps info) ->
  exists info',
    dsn.SetField_each info kvs = Some info'
    /\ is_Some (dsn.ConnectProps info').
Proof.
  unfold dsn.SetField_each.
  induction kvs as [| [k v] kvs IH]; intros info Hprops;
    cbn [foldl mbind option_bind fst snd].
  - eauto.
  - destruct (SetField_keeps_props info k v Hprops) as (info1 & err & -> & H1).
    cbn [mbind option_bind fst snd]. apply IH, H1.
Qed.

Lemma field_of_key_timeout : dsn.field_of_key "packet-read-timeout" = Some 7%nat.
Proof. vm_cast_no_check (@eq_refl _ (dsn.field_of_key "packet-read-timeout")). Qed.

Lemma SetField_int_field_aux info key value :
  key = "packet-read-timeout"%string ->
  dsn.SetField info key value
  = Some (info, Some (dsn.Errorf "unhandled field kind: %s" ["int"] None)).
Proof.
  intros ->. rewrite SetField_by_field, field_of_key_timeout. reflexivity.
Qed.

Lemma SetField_string_field_witness :
  exists info',
    dsn.SetField dsn.NewInfo "hostname" "db.example" = Some (info', None)
    /\ dsn.Field info' 0 = Some (dsn.V_String "db.example").
Proof.
  destruct (SetField_string_field dsn.NewInfo "hostname" "db.example" 0)
    as (info' & Hset & Hfield & _); [reflexivity | reflexivity |].
  exists info'. split; assumption.
Defined.

Lemma SetField_bool_field_witness :
  (exists info',
     dsn.SetField dsn.NewInfo "tls" "True" = Some (info', None)
     /\ dsn.Field info' 8 = Some (dsn.V_Bool true))
  /\ dsn.SetField dsn.NewInfo "tls" "yes"
     = Some (dsn.NewInfo,
             Some (dsn.Errorf "error parsing '%s' as bool for field %s: %w"
                     ["yes"; "tls"] (Some (dsn.NumError "ParseBool" "yes")))).
Proof.
  split.
  - destruct (SetField_bool_field dsn.NewInfo "tls" "True" 8)
      as [Hok _]; [reflexivity | reflexivity |].
    destruct (Hok true) as (info' & Hset & Hfield & _).
    { left. split; [reflexivity |]. do 5 apply list_elem_of_further.
      apply list_elem_of_here. }
    exists info'. split; assumption.
  - destruct (SetField_bool_field dsn.NewInfo "tls" "yes" 8)
      as [_ Hbad]; [reflexivity | reflexivity |].
    apply Hbad. intros Hin. set_unfold. intuition discriminate.
Defined.

Lemma SetField_int_field_witness :
  dsn.SetField dsn.NewInfo "packet-read-timeout" "5"
  = Some (dsn.NewInfo,
          Some (dsn.Errorf "unhandled field kind: %s" ["int"] None)).
Proof.
  apply (SetField_int_field dsn.NewInfo "packet-read-timeout" "5" 7);
    reflexivity.
Defined.

Lemma SetField_property_witness :
  exists info',
    dsn.SetField dsn.NewInfo "cgo-callback-client" "yes" = Some (info', None)
    /\ dsn.Info_Prop info' "cgo-callback-client" = Some "yes"%string.
Proof.
  destruct (SetField_property dsn.NewInfo "cgo-callback-client" "yes" ∅)
    as (info' & Hset & Hprop & _); [reflexivity | reflexivity |].
  exists info'. split; assumption.
Defined.

Lemma SetField_panics_iff_witness :
  dsn.SetField (dsn.set_ConnectProps None dsn.NewInfo) "cgo-callback-client" "yes"
  = None.
Proof.
  apply SetField_panics_iff. split; reflexivity.
Defined.

Lemma SetField_each_total_witness :
  exists info',
    dsn.SetField_each dsn.NewInfo
      [("host", "db"); ("tls", "maybe"); ("appname", "x"); ("appname", "y")]
    = Some info'
    /\ is_Some (dsn.ConnectProps info').
Proof.
  apply SetField_each_total. cbn. eauto.
Defined.

(** ** The environment *)

Lemma SplitN2_cut (key value : string) :
  "="%char ∉ list_ascii_of_string key ->
  dsn.strings_SplitN2 (key ++ String "=" value) "=" = [key; value].
Proof.
  induction key as [| c key IH]; intros Hnot; [reflexivity |].
  cbn [list_ascii_of_string] in Hnot. apply not_elem_of_cons in Hnot as [Hc Hkey].
  simpl. destruct (Ascii.eqb_spec c "=") as [-> | _]; [contradiction |].
  rewrite (IH Hkey). reflexivity.
Qed.

Lemma SplitN2_whole (env : string) :
  "="%char ∉ list_ascii_of_string env ->
  dsn.strings_SplitN2 env "=" = [env].
Proof.
  induction env as [| c env IH]; intros Hnot; [reflexivity |].
  cbn [list_ascii_of_string] in Hnot. apply not_elem_of_cons in Hnot as [Hc Henv].
  simpl. destruct (Ascii.eqb_spec c "=") as [-> | _]; [contradiction |].
  rewrite (IH Henv). reflexivity.
Qed.

Lemma SplitN2_two (env : string) :
  "="%char ∈ list_ascii_of_string env ->
  exists key value, dsn.strings_SplitN2 env "=" = [key; value].
Proof.
  induction env as [| c env IH]; intros Hin; cbn [list_ascii_of_string] in Hin.
  - apply elem_of_nil in Hin. contradiction.
  - simpl. destruct (Ascii.eqb_spec c "=") as [-> | Hne]; [eauto |].
    apply elem_of_cons in Hin as [Heq | Hin]; [congruence |].
    destruct (IH Hin) as (key & value & ->). eauto.
Qed.

Lemma env_loop_stopped u prefix info err environ :
  foldl (dsn.env_loop u prefix) (Some (info, Some err)) environ
  = Some (info, Some err).
Proof. induction environ as [| e environ IH]; [reflexivity | exact IH]. Qed.

Lemma env_loop_panicked u prefix environ :
  foldl (dsn.env_loop u prefix) None environ = None.
Proof. induction environ as [| e environ IH]; [reflexivity | exact IH]. Qed.

(** An entry of the form [key=value] whose key does not start with the
    prefix and the underscore is passed over: the result is the same as
    without it. *)
Theorem NewInfoFromEnv_skips_entry u environ1 environ2 prefix key value :
  "="%char ∉ list_ascii_of_string key ->
  dsn.strings_HasPrefix key
    ((if decide (prefix = "") then "ASE" else prefix) ++ "_")%string = false ->
  dsn.NewInfoFromEnv u
    (environ1 ++ (key ++ String "=" value)%string :: environ2) prefix
  = dsn.NewInfoFromEnv u (environ1 ++ environ2) prefix.
Proof.
  intros Hkey Hpre. unfold dsn.NewInfoFromEnv.
  rewrite !foldl_app. cbn [foldl]. f_equal. f_equal.
  destruct (foldl _ _ environ1) as [[info [err |]] |]; [reflexivity | | reflexivity].
  unfold dsn.env_loop. cbn [mbind option_bind]. unfold dsn.env_entry.
  rewrite (SplitN2_cut key value Hkey). cbn [lookup list_lookup mbind option_bind].
  rewrite Hpre. reflexivity.
Qed.

(** An entry with no [=] in it makes [NewInfoFromEnv] panic, when the
    entries before it were gone through without an error. *)
Theorem NewInfoFromEnv_panics_on_entry u environ1 environ2 prefix env info :
  dsn.NewInfoFromEnv u environ1 prefix = Some (Some info, None) ->
  "="%char ∉ list_ascii_of_string env ->
  dsn.NewInfoFromEnv u (environ1 ++ env :: environ2) prefix = None.
Proof.
  unfold dsn.NewInfoFromEnv. intros Hbefore Henv.
  rewrite foldl_app. cbn [foldl].
  destruct (foldl _ _ environ1) as [[info1 [err |]] |];
    try discriminate Hbefore.
  unfold dsn.env_loop at 2. cbn [mbind option_bind]. unfold dsn.env_entry.
  rewrite (SplitN2_whole env Henv). cbn [lookup list_lookup mbind option_bind].
  rewrite env_loop_panicked. reflexivity.
Qed.

(** On an environment whose entries all have a [=] in them,
    [NewInfoFromEnv] does not panic: it returns an [Info] and no error, or
    no [Info] and an error. *)
Theorem NewInfoFromEnv_returns u environ prefix :
  Forall (λ env, "="%char ∈ list_ascii_of_string env) environ ->
  exists info err,
    dsn.NewInfoFromEnv u environ prefix = Some (info, err)
    /\ (is_Some info <-> err = None).
Proof.
  intros Hall. unfold dsn.NewInfoFromEnv.
  set (p := ((if decide (prefix = "") then "ASE" else prefix) ++ "_")%string).
  assert (forall st : dsn.Info * option dsn.error,
            is_Some (dsn.ConnectProps st.1) ->
            exists st' : dsn.Info * option dsn.error,
              foldl (dsn.env_loop u p) (Some st) environ = Some st'
              /\ is_Some (dsn.ConnectProps st'.1)) as Hloop.
  { induction Hall as [| env environ Henv _ IH]; intros st Hst; [eauto |].
    cbn [foldl]. destruct st as [info [err |]].
    - apply IH. exact Hst.
    - unfold dsn.env_loop at 2. cbn [mbind option_bind]. unfold dsn.env_entry.
      destruct (SplitN2_two env Henv) as (key & value & ->).
      cbn [lookup list_lookup mbind option_bind].
      destruct (negb _); [apply IH; exact Hst |].
      match goal with |- context [dsn.SetField info ?k value] =>
        destruct (SetField_keeps_props info k value Hst)
          as (info1 & err1 & -> & Hst1) end.
      cbn [mbind option_bind].
      destruct err1; apply IH; assumption. }
  destruct (Hloop (dsn.NewInfo, None)) as ([info [err |]] & -> & _);
    [cbn; eauto | |]; cbn [mbind option_bind]; do 2 eexists;
    (split; [reflexivity |]).
  - split; [intros [? [=]] | discriminate].
  - split; [reflexivity | eauto].
Qed.

(** The variable for the [packet-read-timeout] field cannot be used: with
    the default prefix, [ASE_PACKET_READ_TIMEOUT] makes [NewInfoFromEnv]
    return an error, whatever its value, when the entries before it were
    gone through without an error. *)
Theorem NewInfoFromEnv_rejects_timeout u environ1 environ2 prefix value info :
  prefix = "" \/ prefix = "ASE" ->
  dsn.NewInfoFromEnv u environ1 prefix = Some (Some info, None) ->
  dsn.NewInfoFromEnv u
    (environ1 ++ ("ASE_PACKET_READ_TIMEOUT=" ++ value)%string :: environ2) prefix
  = Some (None,
          Some (dsn.Errorf "error setting value '%s' for field %s: %w"
                  [value; "packet-read-timeout"]
                  (Some (dsn.Errorf "unhandled field kind: %s" ["int"] None)))).
Proof.
  intros Hprefix. unfold dsn.NewInfoFromEnv.
  assert ((if decide (prefix = "") then "ASE" else prefix) = "ASE")%string as ->
    by (destruct Hprefix as [-> | ->]; reflexivity).
  intros Hbefore. rewrite foldl_app. cbn [foldl].
  destruct (foldl _ _ environ1) as [[info1 [err |]] |];
    try discriminate Hbefore.
  unfold dsn.env_loop at 2. cbn [mbind option_bind]. unfold dsn.env_entry.
  change (dsn.strings_SplitN2 ("ASE_PACKET_READ_TIMEOUT=" ++ value) "=")
    with ["ASE_PACKET_READ_TIMEOUT"%string; value].
  cbn [lookup list_lookup mbind option_bind].
  change (dsn.strings_HasPrefix "ASE_PACKET_READ_TIMEOUT" ("ASE" ++ "_")) with true.
  cbn [negb].
  change (dsn.strings_ReplaceAll _ _ _) with "packet-read-timeout"%string.
  rewrite (SetField_int_field_aux info1 _ value eq_refl).
  cbn [mbind option_bind]. rewrite env_loop_stopped. reflexivity.
Qed.

Lemma NewInfoFromEnv_skips_entry_witness :
  dsn.NewInfoFromEnv id ["ASE_HOST=db"; "HOME=/root"; "ASE_TLS=1"]%string ""
  = dsn.NewInfoFromEnv id ["ASE_HOST=db"; "ASE_TLS=1"]%string "".
Proof.
  apply (NewInfoFromEnv_skips_entry id ["ASE_HOST=db"%string]
           ["ASE_TLS=1"%string] "" "HOME" "/root").
  - cbn. set_unfold. intuition discriminate.
  - reflexivity.
Defined.

Lemma NewInfoFromEnv_panics_on_entry_witness :
  dsn.NewInfoFromEnv id ["ASE_HOST=db"; "LOOSE"; "ASE_TLS=1"]%string "" = None.
Proof.
  apply (NewInfoFromEnv_panics_on_entry id ["ASE_HOST=db"%string]
           ["ASE_TLS=1"%string] "" "LOOSE" (dsn.set_Host "db" dsn.NewInfo)).
  - reflexivity.
  - cbn. set_unfold. intuition discriminate.
Defined.

Lemma NewInfoFromEnv_returns_witness :
  exists info err,
    dsn.NewInfoFromEnv id ["ASE_HOST=db"; "ASE_TLS=maybe"; "A="]%string ""
    = Some (info, err)
    /\ (is_Some info <-> err = None).
Proof.
  apply NewInfoFromEnv_returns.
  repeat constructor; cbn; set_unfold; tauto.
Defined.

Lemma NewInfoFromEnv_rejects_timeout_witness :
  dsn.NewInfoFromEnv id
    ["ASE_HOST=db"; "ASE_PACKET_READ_TIMEOUT=5"; "ASE_TLS=1"]%string "ASE"
  = Some (None,
          Some (dsn.Errorf "error setting value '%s' for field %s: %w"
                  ["5"; "packet-read-timeout"]
                  (Some (dsn.Errorf "unhandled field kind: %s" ["int"] None)))).
Proof.
  apply (NewInfoFromEnv_rejects_timeout id ["ASE_HOST=db"%string]
           ["ASE_TLS=1"%string] "ASE" "5" (dsn.set_Host "db" dsn.NewInfo)).
  - right. reflexivity.
  - reflexivity.
Defined.

(** ** Package [term] *)

Section Repl_facts.

Variable T : string -> string.
Variable E : string -> string -> option error * string.

Lemma loop_app cmds g reads reads' :
  term.loop T E cmds g (reads ++ reads')
  = match term.loop T E cmds g reads with
    | (out, term.Continue cmds' g') =>
        let '(out', next) := term.loop T E cmds' g' reads' in
        (out ++ out', next)
    | (out, term.Return err g') => (out, term.Return err g')
    end.
Proof.
  revert cmds g. induction reads as [| read reads IH]; intros cmds g.
  - cbn [app term.loop]. destruct (term.loop T E cmds g reads'). reflexivity.
  - cbn [app term.loop].
    destruct (term.iteration T E cmds g read) as [out [cmds1 g1 | err g1]];
      [| reflexivity].
    rewrite IH.
    destruct (term.loop T E cmds1 g1 reads) as [out1 [cmds2 g2 | err g2]];
      [| reflexivity].
    destruct (term.loop T E cmds2 g2 reads') as [out2 next].
    rewrite app_assoc. reflexivity.
Qed.

Lemma kept_one line :
  term.kept T [line] = if decide (T line ≠ "") then [T line] else [].
Proof.
  unfold term.kept. cbn [fmap list_fmap]. rewrite filter_cons, filter_nil.
  reflexivity.
Qed.

(** A line read without error that does not end a command is kept, if not
    empty, and the next prompt is the one of a command that goes on. *)
Lemma iteration_pending cmds g line :
  term.strings_HasSuffix (T line) ";" = false ->
  term.iteration T E cmds g (line, None)
  = ([term.SetPrompt (term.UpdatePrompt g)],
     term.Continue (cmds ++ term.kept T [line]) (term.multiline g)).
Proof.
  intros Hsuf. unfold term.iteration. rewrite Hsuf, kept_one. cbn [negb andb].
  destruct (decide (T line ≠ "")); [reflexivity | rewrite app_nil_r; reflexivity].
Qed.

Lemma kept_app lines lines' :
  term.kept T (lines ++ lines') = term.kept T lines ++ term.kept T lines'.
Proof. unfold term.kept. rewrite fmap_app, filter_app. reflexivity. Qed.

Lemma loop_pending lines :
  forall cmds g,
  Forall (λ l, term.strings_HasSuffix (T l) ";" = false) lines ->
  term.loop T E cmds g ((λ l, (l, None)) <$> lines)
  = (term.prompts g (length lines),
     term.Continue (cmds ++ term.kept T lines)
       (if decide (lines = []) then g else term.multiline g)).
Proof.
  induction lines as [| l lines IH]; intros cmds g Hall.
  - cbn. rewrite app_nil_r. reflexivity.
  - apply Forall_cons in Hall as [Hl Hall].
    cbn [fmap list_fmap term.loop]. rewrite (iteration_pending _ _ _ Hl).
    rewrite (IH _ _ Hall).
    change (l :: lines) with ([l] ++ lines). rewrite kept_app, app_assoc.
    cbn [app length term.prompts].
    destruct lines as [| l' lines]; [reflexivity |].
    cbn [length term.prompts replicate decide]. reflexivity.
Qed.

Lemma prompts_next g (lines : list string) :
  term.prompts g (length lines)
  ++ [term.SetPrompt
        (term.UpdatePrompt (if decide (lines = []) then g else term.multiline g))]
  = term.prompts g (S (length lines)).
Proof.
  destruct lines as [| l lines]; [reflexivity |].
  destruct (decide (l :: lines = [])) as [? | _]; [discriminate |].
  cbn [length term.prompts]. rewrite <- app_comm_cons. f_equal.
  symmetry. apply replicate_S_end.
Qed.

(** Lines that do not end a command, then one that does: the kept lines,
    joined by single blanks, are executed as one command, once.  The
    prompts before it are the one at the call and then that of a command
    that goes on; an error of the execution is logged, and the loop goes on
    with nothing kept and the prompt of a new command. *)
Theorem Repl_executes_command g lines last :
  Forall (λ l, term.strings_HasSuffix (T l) ";" = false) lines ->
  term.strings_HasSuffix (T last) ";" = true ->
  let query := term.strings_Join (term.kept T (lines ++ [last])) " " in
  let res := E query (term.PromptDatabaseName g) in
  term.Repl T E None g ((λ l, (l, None)) <$> (lines ++ [last]))
  = (term.prompts g (S (length lines)) ++ [term.Exec query]
     ++ match res.1 with Some e => [term.Println e] | None => [] end,
     term.Continue []
       {| term.PromptDatabaseName := res.2; term.promptMultiline := false |}).
Proof.
  intros Hlines Hlast query res. unfold term.Repl.
  rewrite fmap_app, loop_app, (loop_pending _ _ _ Hlines).
  cbn [fmap list_fmap term.loop app].
  unfold term.iteration. rewrite Hlast. cbn [negb andb].
  assert ((if decide (T last ≠ "") then term.kept T lines ++ [T last]
           else term.kept T lines) = term.kept T (lines ++ [last])) as ->.
  { rewrite kept_app, kept_one.
    destruct (decide (T last ≠ "")); [reflexivity | rewrite app_nil_r; reflexivity]. }
  assert (term.PromptDatabaseName
            (if decide (lines = []) then g else term.multiline g)
          = term.PromptDatabaseName g) as ->
    by (destruct (decide _); reflexivity).
  fold query. fold res. destruct res as [err name]. cbn [fst snd].
  destruct err as [e |]; cbn [app]; rewrite <- prompts_next, <- !app_assoc;
    reflexivity.
Qed.

(** End of input: when [rl.Readline()] returns [io.EOF], the lines kept so
    far and the line that came with it are executed as one command, whether
    or not it ends in a semicolon, and [Repl] returns what the execution
    returns; nothing is read after that. *)
Theorem Repl_executes_at_EOF g lines last err reads :
  Forall (λ l, term.strings_HasSuffix (T l) ";" = false) lines ->
  errors.Is (Some err) io_EOF = true ->
  let query := term.strings_Join (term.kept T (lines ++ [last])) " " in
  let res := E query (term.PromptDatabaseName g) in
  term.Repl T E None g
    (((λ l, (l, None)) <$> lines) ++ (last, Some err) :: reads)
  = (term.prompts g (S (length lines)) ++ [term.Exec query],
     term.Return res.1
       {| term.PromptDatabaseName := res.2; term.promptMultiline := false |}).
Proof.
  intros Hlines HEOF query res. unfold term.Repl.
  rewrite loop_app, (loop_pending _ _ _ Hlines).
  cbn [term.loop app]. unfold term.iteration. rewrite HEOF.
  rewrite andb_false_r.
  assert ((if decide (T last ≠ "") then term.kept T lines ++ [T last]
           else term.kept T lines) = term.kept T (lines ++ [last])) as ->.
  { rewrite kept_app, kept_one.
    destruct (decide (T last ≠ "")); [reflexivity | rewrite app_nil_r; reflexivity]. }
  assert (term.PromptDatabaseName
            (if decide (lines = []) then g else term.multiline g)
          = term.PromptDatabaseName g) as ->
    by (destruct (decide _); reflexivity).
  fold query. fold res. destruct res as [e name]. cbn [fst snd].
  rewrite <- prompts_next, <- !app_assoc. reflexivity.
Qed.

(** Any other error of [rl.Readline()] ends [Repl] at once, with that error
    wrapped: the lines kept so far are not executed, and nothing is read
    after it. *)
Theorem Repl_readline_error g lines last err reads :
  Forall (λ l, term.strings_HasSuffix (T l) ";" = false) lines ->
  errors.Is (Some err) io_EOF = false ->
  term.Repl T E None g
    (((λ l, (l, None)) <$> lines) ++ (last, Some err) :: reads)
  = (term.prompts g (S (length lines)),
     term.Return
       (Some (fmt_Errorf "term: received error from readline: %w" []
                (Some err)))
       (if decide (lines = []) then g else term.multiline g)).
Proof.
  intros Hlines HEOF. unfold term.Repl.
  rewrite loop_app, (loop_pending _ _ _ Hlines).
  cbn [term.loop]. unfold term.iteration. rewrite HEOF.
  rewrite <- prompts_next. reflexivity.
Qed.

(** [Repl] returns only on an error of [readline.New] or of
    [rl.Readline()]: as long as lines are read without error it goes on,
    whatever the executions return. *)
Theorem Repl_goes_on g reads :
  Forall (λ read, read.2 = None) reads ->
  exists out cmds g', term.Repl T E None g reads = (out, term.Continue cmds g').
Proof.
  unfold term.Repl. generalize (@nil string) as cmds. revert g.
  induction reads as [| [line err] reads IH]; intros g cmds Hall.
  - cbn. eauto.
  - apply Forall_cons in Hall as [Herr Hall]. cbn in Herr. subst err.
    cbn [term.loop].
    assert (exists out cmds1 g1,
              term.iteration T E cmds g (line, None)
              = (out, term.Continue cmds1 g1)) as (out & cmds1 & g1 & ->).
    { unfold term.iteration. rewrite andb_true_r.
      destruct (negb _); [eauto |].
      destruct (E _ _) as [[e |] name]; eauto. }
    destruct (IH g1 cmds1 Hall) as (out' & cmds2 & g2 & ->). eauto.
Qed.

End Repl_facts.

Lemma Repl_executes_command_witness :
  term.Repl id (λ _ name, (None, name)) None
    {| term.PromptDatabaseName := "master"; term.promptMultiline := false |}
    [("select 1"%string, None); (""%string, None); ("from t;"%string, None)]
  = ([term.SetPrompt "master> "; term.SetPrompt "master>>> ";
      term.SetPrompt "master>>> "; term.Exec "select 1 from t;"],
     term.Continue []
       {| term.PromptDatabaseName := "master"; term.promptMultiline := false |}).
Proof.
  apply (Repl_executes_command id (λ _ name, (None, name))
           {| term.PromptDatabaseName := "master";
              term.promptMultiline := false |}
           ["select 1"; ""]%string "from t;"%string).
  - repeat constructor.
  - reflexivity.
Defined.

Lemma Repl_executes_at_EOF_witness :
  term.Repl id (λ _ name, (Some (errors_New "syntax error"), name)) None
    {| term.PromptDatabaseName := ""; term.promptMultiline := false |}
    [("select 1"%string, None); ("from t"%string, Some io_EOF);
     ("never read;"%string, None)]
  = ([term.SetPrompt "> "; term.SetPrompt ">>> ";
      term.Exec "select 1 from t"],
     term.Return (Some (errors_New "syntax error"))
       {| term.PromptDatabaseName := ""; term.promptMultiline := false |}).
Proof.
  apply (Repl_executes_at_EOF id
           (λ _ name, (Some (errors_New "syntax error"), name))
           {| term.PromptDatabaseName := ""; term.promptMultiline := false |}
           ["select 1"%string] "from t"%string io_EOF
           [("never read;"%string, None)]).
  - repeat constructor.
  - reflexivity.
Defined.

Lemma Repl_readline_error_witness :
  term.Repl id (λ _ name, (None, name)) None
    {| term.PromptDatabaseName := ""; term.promptMultiline := false |}
    [("select 1"%string, None); (""%string, Some (errors_New "Interrupt"));
     ("from t;"%string, None)]
  = ([term.SetPrompt "> "; term.SetPrompt ">>> "],
     term.Return
       (Some (fmt_Errorf "term: received error from readline: %w" []
                (Some (errors_New "Interrupt"))))
       {| term.PromptDatabaseName := ""; term.promptMultiline := true |}).
Proof.
  apply (Repl_readline_error id (λ _ name, (None, name))
           {| term.PromptDatabaseName := ""; term.promptMultiline := false |}
           ["select 1"%string] ""%string (errors_New "Interrupt")
           [("from t;"%string, None)]).
  - repeat constructor.
  - reflexivity.
Defined.

Lemma Repl_goes_on_witness :
  exists out cmds g',
    term.Repl id (λ _ name, (Some (errors_New "syntax error"), name)) None
      {| term.PromptDatabaseName := ""; term.promptMultiline := false |}
      [("x;"%string, None); ("y;"%string, None); ("z"%string, None)]
    = (out, term.Continue cmds g').
Proof.
  apply Repl_goes_on. repeat constructor.
Defined.
